(** * Wechat2Pdf: the image acquisition and smart-filtering pipeline

    A shallow embedding of [backend/main.py]: URL canonicalisation
    ([ArticleProcessor.normalize_image_url]), the classifier
    ([SmartFilter.is_valid_exam_paper]), the guarded fetch
    ([ArticleProcessor.download_single_image]), the batch driver
    ([ArticleProcessor.download_images]) and the admission gate around the
    fetches.

    Conventions.
    - A Python [str] is a [string] whose characters are read as the code
      points 0..255; [bytes] are [list byte]; [int] is [Z].
    - Python floats are exact rationals ([Q]).
    - The results of the OpenCV / PIL / httpx calls are fields of the
      records the functions receive: the embedding fixes what the code does
      with these results, not what the libraries compute. Each of these
      calls may raise, inside a [try] or outside. When a function raises,
      the value it leaves in [SmartFilter._net] is not reported. *)

From Stdlib Require Import ZArith QArith List Permutation String Ascii Bool
  Lia.
Import ListNotations.

Local Open Scope string_scope.
Local Open Scope Z_scope.

(* ===================================================================== *)
(** ** Python strings *)
(* ===================================================================== *)

Module PyStr.

(** [str.isdigit] on one character, for the code points below 256: the
    ASCII digits and the superscripts U+00B2, U+00B3, U+00B9. *)
Definition isdigit_char (c : ascii) : bool :=
  let n := nat_of_ascii c in
  ((48 <=? n) && (n <=? 57) || (n =? 178) || (n =? 179) || (n =? 185))%nat.

Fixpoint all_chars (p : ascii -> bool) (s : string) : bool :=
  match s with
  | EmptyString => true
  | String c r => p c && all_chars p r
  end.

(** [s.isdigit()]: every character is a digit and there is at least one. *)
Definition isdigit (s : string) : bool :=
  match s with
  | EmptyString => false
  | String _ _ => all_chars isdigit_char s
  end.

(** [str.lower] on one character, for the code points below 256. *)
Definition lower_char (c : ascii) : ascii :=
  let n := nat_of_ascii c in
  if ((65 <=? n) && (n <=? 90)
      || (192 <=? n) && (n <=? 222) && negb (n =? 215))%nat
  then ascii_of_nat (n + 32) else c.

Fixpoint lower (s : string) : string :=
  match s with
  | EmptyString => EmptyString
  | String c r => String (lower_char c) (lower r)
  end.

(** [needle in s]. *)
Fixpoint contains (needle s : string) : bool :=
  if String.prefix needle s then true
  else match s with
       | EmptyString => false
       | String _ r => contains needle r
       end.

(** [s.rsplit("/", 1)]: [Some (prefix, last)] when the result has two
    parts, [None] when [s] has no slash (the result is [[s]]). *)
Fixpoint rsplit_slash (s : string) : option (string * string) :=
  match s with
  | EmptyString => None
  | String c r =>
      match rsplit_slash r with
      | Some (p, l) => Some (String c p, l)
      | None => if Ascii.eqb c "/" then Some (EmptyString, r) else None
      end
  end.

(** Dropping the first [n] characters, [s[n:]]. *)
Fixpoint drop (n : nat) (s : string) : string :=
  match n, s with
  | O, _ => s
  | S _, EmptyString => EmptyString
  | S k, String _ r => drop k r
  end.

(** Whitespace as [int()] and [str.strip] see it, below code point 256. *)
Definition isspace_char (c : ascii) : bool :=
  let n := nat_of_ascii c in
  ((9 <=? n) && (n <=? 13) || (28 <=? n) && (n <=? 32)
   || (n =? 133) || (n =? 160))%nat.

Fixpoint lstrip (s : string) : string :=
  match s with
  | EmptyString => EmptyString
  | String c r => if isspace_char c then lstrip r else s
  end.

Fixpoint rstrip (s : string) : string :=
  match s with
  | EmptyString => EmptyString
  | String c r =>
      match rstrip r with
      | EmptyString => if isspace_char c then EmptyString else String c EmptyString
      | r' => String c r'
      end
  end.

Definition decimal_value (c : ascii) : option Z :=
  let n := nat_of_ascii c in
  if ((48 <=? n) && (n <=? 57))%nat then Some (Z.of_nat n - 48) else None.

(** Decimal digits with single underscores between them. [after_digit]
    tells whether the previous character was a digit. *)
Fixpoint digits_value (s : string) (acc : Z) (after_digit : bool) : option Z :=
  match s with
  | EmptyString => if after_digit then Some acc else None
  | String c r =>
      match decimal_value c with
      | Some d => digits_value r (10 * acc + d) true
      | None =>
          if Ascii.eqb c "_" && after_digit then digits_value r acc false
          else None
      end
  end.

(** [int(s)] in base ten; [None] stands for [ValueError]. The
    interpreter's limit on the number of digits is not modelled. *)
Definition int (s : string) : option Z :=
  match rstrip (lstrip s) with
  | String "+" r => digits_value r 0 false
  | String "-" r => option_map Z.opp (digits_value r 0 false)
  | t => digits_value t 0 false
  end.

End PyStr.

(* ===================================================================== *)
(** ** URL canonicalisation *)
(* ===================================================================== *)

Module ArticleUrl.

(** The literal part of [r"(https://mmbiz\.qpic\.cn/[^?]+)"]. *)
Definition host_lit : string := "https://mmbiz.qpic.cn/".

(** The greedy [[^?]*]: the longest prefix without a question mark. *)
Fixpoint non_qmark_run (s : string) : string :=
  match s with
  | EmptyString => EmptyString
  | String c r =>
      if Ascii.eqb c "?" then EmptyString else String c (non_qmark_run r)
  end.

(** The pattern matched at the start of [s]; the result is group 1. *)
Definition match_here (s : string) : option string :=
  if String.prefix host_lit s then
    match non_qmark_run (PyStr.drop (String.length host_lit) s) with
    | EmptyString => None
    | run => Some (host_lit ++ run)
    end
  else None.

(** [re.search]: the match at the leftmost position that has one. *)
Fixpoint re_search (s : string) : option string :=
  match match_here s with
  | Some m => Some m
  | None =>
      match s with
      | EmptyString => None
      | String _ r => re_search r
      end
  end.

Definition normalize_image_url (url : string) : string :=
  match re_search url with
  | Some base =>
      match PyStr.rsplit_slash base with
      | Some (prefix, last) =>
          if PyStr.isdigit last then prefix ++ "/0" else url
      | None => url
      end
  | None => url
  end.

(** No question mark occurs in [s]: the run is all of [s]. *)
Definition no_qmark (s : string) : Prop := non_qmark_run s = s.

(** [base], or [base?query]. *)
Definition with_query (base : string) (query : option string) : string :=
  match query with
  | None => base
  | Some q => base ++ String "?" q
  end.

End ArticleUrl.

(* ===================================================================== *)
(** ** Exceptions *)
(* ===================================================================== *)

Inductive exn : Type :=
| ZeroDivisionError
| ValueError
| LibraryError.   (* cv2.error, httpx errors: anything a library call raises *)

Inductive result (A : Type) : Type :=
| Ok (a : A)
| Raise (e : exn).
Arguments Ok {A} a.
Arguments Raise {A} e.

Definition bind {A B : Type} (m : result A) (k : A -> result B) : result B :=
  match m with
  | Ok a => k a
  | Raise e => Raise e
  end.

Notation "x <- m ;; k" := (bind m (fun x => k))
  (at level 61, m at next level, right associativity).

(** [try: m  except Exception: h]. *)
Definition try_except {A : Type} (m : result A) (h : A) : A :=
  match m with
  | Ok a => a
  | Raise _ => h
  end.

(** [a / b] with a float [a] and an int [b]. *)
Definition float_div (a : Q) (b : Z) : result Q :=
  if b =? 0 then Raise ZeroDivisionError else Ok (a / inject_Z b)%Q.

(** [a / b] on two ints. *)
Definition true_div (a b : Z) : result Q := float_div (inject_Z a) b.

(** [x > y] and [x < y] on floats. *)
Definition Qgtb (x y : Q) : bool := negb (Qle_bool x y).
Definition Qltb (x y : Q) : bool := negb (Qle_bool y x).

(* ===================================================================== *)
(** ** Constants *)
(* ===================================================================== *)

Definition MIN_IMAGE_DIMENSION : Z := 300.
Definition MAX_CONCURRENT_DOWNLOADS : Z := 10.
Definition MAX_IMAGE_SIZE_BYTES : Z := 10 * 1024 * 1024.

(* ===================================================================== *)
(** ** Images *)
(* ===================================================================== *)

(** The quadrilateral a QR detector returns, with what [cv2.contourArea]
    computes for it. *)
Record Contour : Type := { contourArea : Q }.

(** The result of [detector.detectAndDecode]. *)
Record QRRead : Type := {
  decoded_text : string;
  points : option Contour
}.

(** A decoded PIL image together with what the vision calls of the
    classifier return on it. *)
Record Image : Type := {
  mode : string;
  size : Z * Z;
  (** [cv2.cvtColor(np.array(pil_image), cv2.COLOR_RGB2BGR)] (line 119):
      it returns, or raises as it does on an array that has not three or
      four channels *)
  bgr : result unit;
  (** [detectAndDecode(gray)], [(255 - gray)], [(binary)] *)
  qr_gray : result QRRead;
  qr_inverted : result QRRead;
  qr_binary : result QRRead;
  (** [detector.detect(gray)] *)
  qr_detect : result (bool * option Contour);
  (** lines 188-203: [len(indices)], the boxes left by the network,
      [decode] and [NMSBoxes] *)
  text_boxes : result Z;
  (** lines 226-227: [np.count_nonzero(cv2.Canny(gray, 50, 150))] *)
  edge_pixels : result Z
}.

(** [img.convert("RGB")]: the mode changes. The results of the vision
    calls are carried over: they are those of the image the classifier
    is given, that is, of the converted one. *)
Definition convert_RGB (img : Image) : Image :=
  {| mode := "RGB"; size := size img; bgr := bgr img;
     qr_gray := qr_gray img; qr_inverted := qr_inverted img;
     qr_binary := qr_binary img; qr_detect := qr_detect img;
     text_boxes := text_boxes img; edge_pixels := edge_pixels img |}.

(* ===================================================================== *)
(** ** SmartFilter *)
(* ===================================================================== *)

Module SmartFilter.

(** The network read from [models/frozen_east_text_detection.pb]. *)
Inductive dnn_Net : Type := east_net.

(** What [load_model] finds on disk. *)
Inductive ModelArtifact : Type :=
| artifact_missing                 (* os.path.exists is False *)
| artifact_unreadable              (* cv2.dnn.readNet raises *)
| artifact_ok (net : dnn_Net).

(** [load_model], as a transformer of the class attribute [_net]. *)
Definition load_model (disk : ModelArtifact) (_net : option dnn_Net)
  : option dnn_Net :=
  match _net with
  | None =>
      match disk with
      | artifact_missing => None
      | artifact_unreadable => None
      | artifact_ok net => Some net
      end
  | Some _ => _net
  end.

(** The second component of the verdict. *)
Inductive QrReason : Type :=
| qr_none                          (* "" *)
| qr_scannable (ratio : Q)         (* scannable QR code, share [ratio] *)
| qr_suspected (ratio : Q).        (* undecoded QR pattern, share [ratio] *)

Inductive Reason : Type :=
| too_small (w h : Z)
| huge_qr (ratio : Q)
| model_not_loaded
| many_text_regions (n : Z)
| qr_and_little_text (qr : QrReason) (n : Z)
| card_like (n : Z) (aspect_ratio : Q)
| moderate_text (n : Z)
| little_text_with_lines (n : Z) (edge_density : Q)
| no_text_rich_lines (edge_density : Q)
| odd_aspect_ratio
| sparse (n : Z) (edge_density : Q).

Definition Verdict : Type := (bool * Reason)%type.

(** How the QR block (lines 121-179) ends: with a [return], or by
    falling through with [has_prominent_qr] and [qr_reason] set. *)
Inductive QrOutcome : Type :=
| qr_return (v : Verdict)
| qr_continue (has_prominent_qr : bool) (qr_reason : QrReason).

Definition nonempty (s : string) : bool :=
  match s with EmptyString => false | String _ _ => true end.

(** The body of the [try]. *)
Definition qr_try (img : Image) : result QrOutcome :=
  let '(w, h) := size img in
  r1 <- qr_gray img ;;
  r2 <- (if negb (nonempty (decoded_text r1)) then qr_inverted img else Ok r1) ;;
  r3 <- (if negb (nonempty (decoded_text r2)) then qr_binary img else Ok r2) ;;
  match points r3, nonempty (decoded_text r3) with
  | Some pts, true =>
      ratio <- float_div (contourArea pts) (w * h) ;;
      if Qgtb ratio (2 # 5) then Ok (qr_return (false, huge_qr ratio))
      else if Qgtb ratio (1 # 20) then Ok (qr_continue true (qr_scannable ratio))
      else Ok (qr_continue false qr_none)
  | _, false =>
      d <- qr_detect img ;;
      match d with
      | (true, Some pts) =>
          ratio <- float_div (contourArea pts) (w * h) ;;
          if Qgtb ratio (1 # 5) then Ok (qr_continue true (qr_suspected ratio))
          else Ok (qr_continue false qr_none)
      | _ => Ok (qr_continue false qr_none)
      end
  | None, true => Ok (qr_continue false qr_none)
  end.


(** The [try] with its handler, which resets the two variables. *)
Definition qr_stage (img : Image) : QrOutcome :=
  try_except (qr_try img) (qr_continue false qr_none).

(** Line 206. *)
Definition aspect_ratio_of (w h : Z) : result Q :=
  if Z.min w h >? 0 then true_div (Z.max w h) (Z.min w h) else Ok 1%Q.

(** The decision logic (lines 205-240). *)
Definition decision (img : Image) (num_text_boxes : Z)
    (has_prominent_qr : bool) (qr_reason : QrReason) : result Verdict :=
  let '(w, h) := size img in
  aspect_ratio <- aspect_ratio_of w h ;;
  if num_text_boxes >=? 8 then Ok (true, many_text_regions num_text_boxes)
  else if has_prominent_qr
  then Ok (false, qr_and_little_text qr_reason num_text_boxes)
  else if (4 <=? num_text_boxes) && (num_text_boxes <? 8) then
    if Qltb aspect_ratio (13 # 10)
    then Ok (false, card_like num_text_boxes aspect_ratio)
    else Ok (true, moderate_text num_text_boxes)
  else
    edges <- edge_pixels img ;;
    edge_density <- true_div edges (w * h) ;;
    if (num_text_boxes >? 0) && Qgtb edge_density (1 # 100)
    then Ok (true, little_text_with_lines num_text_boxes edge_density)
    else if negb (num_text_boxes >? 0) && Qgtb edge_density (1 # 20)
    then Ok (true, no_text_rich_lines edge_density)
    else if Qgtb aspect_ratio 4
    then Ok (false, odd_aspect_ratio)
    else Ok (false, sparse num_text_boxes edge_density).

(** [is_valid_exam_paper]: the verdict and the value of [_net] after
    the call, or the exception of a library call outside the [try]. *)
Definition is_valid_exam_paper (disk : ModelArtifact)
    (_net : option dnn_Net) (pil_image : Image)
  : result (Verdict * option dnn_Net) :=
  let '(w, h) := size pil_image in
  if (w <? MIN_IMAGE_DIMENSION) || (h <? MIN_IMAGE_DIMENSION)
  then Ok ((false, too_small w h), _net)
  else
    cv_img <- bgr pil_image ;;
    match qr_stage pil_image with
    | qr_return v => Ok (v, _net)
    | qr_continue has_prominent_qr qr_reason =>
        let _net' := load_model disk _net in
        match _net' with
        | None => Ok ((true, model_not_loaded), _net')
        | Some _ =>
            num_text_boxes <- text_boxes pil_image ;;
            v <- decision pil_image num_text_boxes has_prominent_qr qr_reason ;;
            Ok (v, _net')
        end
    end.

End SmartFilter.

(* ===================================================================== *)
(** ** ArticleProcessor: fetching *)
(* ===================================================================== *)

Module ArticleProcessor.

Import SmartFilter.

Definition bytes : Type := list Byte.byte.

Definition len (b : bytes) : Z := Z.of_nat (List.length b).

(** An HTTP response as [download_single_image] reads it. *)
Record Response : Type := {
  (** [resp.raise_for_status()] *)
  status : result unit;
  (** [resp.headers.get('Content-Type')], [.get('Content-Length')] *)
  content_type : option string;
  content_length : option string;
  (** the chunks [resp.aiter_bytes()] yields, in order *)
  body : list bytes;
  (** the stream raises once these chunks have been delivered *)
  body_breaks : bool
}.

(** [Image.open(BytesIO(img_data))] followed by [img.load()]. *)
Inductive Opened : Type :=
| opened (img : Image)
| DecompressionBombError
| open_failed.

(** The network, the image decoder and the directory [output/discarded]. *)
Record World : Type := {
  stream_GET : string -> result Response;
  Image_open : bytes -> Opened;
  (** [os.makedirs(discard_dir, exist_ok=True)] *)
  makedirs : result unit;
  (** [img.save(os.path.join(discard_dir, ...))] *)
  Image_save : Image -> result unit
}.

Definition Candidate : Type := (Image * Z * string)%type.

(** What one call of [download_single_image] does: its return value
    and how many chunks it pulled from the response body. *)
Record Fetched : Type := {
  returned : option Candidate;
  chunks_read : nat
}.

(** The [async for] loop (lines 412-417). [None]: the size limit was
    exceeded, and the function returns [None]. *)
Fixpoint read_body (chunks : list bytes) (img_data : bytes) (n : nat)
  : option bytes * nat :=
  match chunks with
  | [] => (Some img_data, n)
  | chunk :: rest =>
      let img_data := (img_data ++ chunk)%list in
      if len img_data >? MAX_IMAGE_SIZE_BYTES then (None, S n)
      else read_body rest img_data (S n)
  end.

(** Lines 419-441: decoding and the dimension gate. *)
Definition decode_and_gate (world : World) (url : string) (img_data : bytes)
  : option Candidate :=
  let img_size := len img_data in
  match Image_open world img_data with
  | DecompressionBombError => None
  | open_failed => None
  | opened img =>
      let img :=
        if String.eqb (mode img) "RGBA" || String.eqb (mode img) "P"
        then convert_RGB img else img in
      let '(w, h) := size img in
      if (w <? MIN_IMAGE_DIMENSION) || (h <? MIN_IMAGE_DIMENSION)
      then None
      else Some (img, img_size, url)
  end.

Definition header_or (h : option string) (default : string) : string :=
  match h with Some s => s | None => default end.

(** [if content_length and int(content_length) > MAX_IMAGE_SIZE_BYTES]. *)
Definition length_exceeds (content_length : option string) : result bool :=
  match content_length with
  | None => Ok false
  | Some EmptyString => Ok false
  | Some s =>
      match PyStr.int s with
      | Some n => Ok (n >? MAX_IMAGE_SIZE_BYTES)
      | None => Raise ValueError
      end
  end.

(** The body of the outer [try] (lines 391-441), with the number of
    chunks read so far next to every outcome. *)
Definition download_try (world : World) (url : string)
  : result (option Candidate) * nat :=
  match stream_GET world url with
  | Raise e => (Raise e, O)
  | Ok resp =>
      match status resp with
      | Raise e => (Raise e, O)
      | Ok _ =>
          let content_type := PyStr.lower (header_or (content_type resp) "") in
          if PyStr.contains "text/html" content_type
             || PyStr.contains "image/svg" content_type
          then (Ok None, O)
          else
            match length_exceeds (content_length resp) with
            | Raise e => (Raise e, O)
            | Ok true => (Ok None, O)
            | Ok false =>
                match read_body (body resp) [] O with
                | (None, n) => (Ok None, n)
                | (Some img_data, n) =>
                    if body_breaks resp then (Raise LibraryError, n)
                    else (Ok (decode_and_gate world url img_data), n)
                end
            end
      end
  end.

(** [download_single_image], without the semaphore (see [Gate]):
    [except Exception] turns every exception into [None]. *)
Definition download_single_image (world : World) (url : string) : Fetched :=
  let '(r, n) := download_try world url in
  {| returned := try_except r None; chunks_read := n |}.

(* =================================================================== *)
(** ** ArticleProcessor: the batch *)
(* =================================================================== *)

(** [for res in results: if res: candidates.append(res)]. *)
Fixpoint collect (results : list (option Candidate))
    (candidates : list Candidate) : list Candidate :=
  match results with
  | [] => candidates
  | Some c :: rest => collect rest (candidates ++ [c])%list
  | None :: rest => collect rest candidates
  end.

(** What the filtering loop builds. *)
Record Filtered : Type := {
  final_images : list Image;
  discarded_images : list Image
}.

(** The filtering loop (lines 489-499), threading [SmartFilter._net]. *)
Fixpoint filter_loop (disk : ModelArtifact) (save_discarded : bool)
    (candidates : list Candidate) (acc : Filtered)
    (_net : option dnn_Net) : result (Filtered * option dnn_Net) :=
  match candidates with
  | [] => Ok (acc, _net)
  | (img, _, _) :: rest =>
      r <- is_valid_exam_paper disk _net img ;;
      let '((is_valid, _), _net) := r in
      if negb is_valid then
        let acc :=
          if save_discarded
          then {| final_images := final_images acc;
                  discarded_images := (discarded_images acc ++ [img])%list |}
          else acc in
        filter_loop disk save_discarded rest acc _net
      else
        filter_loop disk save_discarded rest
          {| final_images := (final_images acc ++ [img])%list;
             discarded_images := discarded_images acc |} _net
  end.

(** Lines 501-505: the discarded images are written one after the
    other; the first failure ends the function. *)
Fixpoint save_each (world : World) (imgs : list Image) : result unit :=
  match imgs with
  | [] => Ok tt
  | img :: rest => _ <- Image_save world img ;; save_each world rest
  end.

Definition write_discarded (world : World) (save_discarded : bool)
    (discarded_images : list Image) : result unit :=
  match save_discarded, discarded_images with
  | true, _ :: _ => _ <- makedirs world ;; save_each world discarded_images
  | _, _ => Ok tt
  end.

(** What [download_images] leaves behind: the returned list, the images
    written to [output/discarded], and [SmartFilter._net]. *)
Record Batch : Type := {
  images : list Image;
  saved_discarded : list Image;
  net_after : option dnn_Net
}.

(** [download_images]. [asyncio.gather] returns the results in the
    order of the tasks, that is, of [urls]. *)
Definition download_images (world : World) (disk : ModelArtifact)
    (_net : option dnn_Net) (urls : list string)
    (no_filter save_discarded : bool) : result Batch :=
  let results := map (fun url => returned (download_single_image world url)) urls in
  let candidates := collect results [] in
  match candidates with
  | [] => Ok {| images := []; saved_discarded := []; net_after := _net |}
  | _ =>
      if no_filter
      then Ok {| images := map (fun c : Candidate => fst (fst c)) candidates;
                 saved_discarded := []; net_after := _net |}
      else
        r <- filter_loop disk save_discarded candidates
               {| final_images := []; discarded_images := [] |} _net ;;
        let '(f, _net) := r in
        _ <- write_discarded world save_discarded (discarded_images f) ;;
        Ok {| images := final_images f;
              saved_discarded := discarded_images f;
              net_after := _net |}
  end.

(** The candidates of a URL list: what the fetches return, failures
    left out, in the order of the list. *)
Definition fetched (world : World) (urls : list string) : list Candidate :=
  flat_map (fun url =>
              match returned (download_single_image world url) with
              | Some c => [c]
              | None => []
              end) urls.

(** [c[0]]: the image of a candidate. *)
Definition image_of (c : Candidate) : Image := fst (fst c).

(** The classifier's verdict on a candidate, [_net] being the value of
    [SmartFilter._net] when the batch starts ([false] also when the
    classifier raises on it). *)
Definition passes (disk : ModelArtifact) (_net : option dnn_Net)
    (c : Candidate) : bool :=
  match is_valid_exam_paper disk _net (fst (fst c)) with
  | Ok ((is_valid, _), _) => is_valid
  | Raise _ => false
  end.

End ArticleProcessor.

(* ===================================================================== *)
(** ** The admission gate *)
(* ===================================================================== *)

(** [download_images] creates one task per URL and gathers them; every
    task is [async with semaphore: <fetch>]. The event loop interleaves
    the tasks; a schedule is the list of the transitions it takes. *)
Module Gate.

Import ArticleProcessor.

(** Where a task stands. *)
Inductive Task : Type :=
| waiting                           (* at [async with semaphore] *)
| fetching                          (* inside the block: holds a slot *)
| finished (r : option Candidate)   (* left the block through a [return] *)
| cancelled.                        (* left through [CancelledError] *)

(** The semaphore's counter and the tasks, in the order of [urls]. *)
Record Loop : Type := {
  value : Z;
  tasks : list Task
}.

Inductive Event : Type :=
| Acquire (i : nat)     (* task [i] enters the block *)
| Complete (i : nat)    (* the fetch of task [i] returns: the block exits *)
| Cancel (i : nat).     (* task [i] is cancelled where it stands *)

Fixpoint update {A : Type} (i : nat) (x : A) (l : list A) : list A :=
  match l, i with
  | [], _ => []
  | _ :: r, O => x :: r
  | a :: r, S k => a :: update k x r
  end.

Definition is_fetching (t : Task) : bool :=
  match t with fetching => true | _ => false end.

Definition fetching_count (ts : list Task) : Z :=
  Z.of_nat (List.length (filter is_fetching ts)).

(** The number of fetches in flight. *)
Definition active (l : Loop) : Z := fetching_count (tasks l).

(** Slots in use and slots free add up to the ceiling. *)
Definition balanced (l : Loop) : Prop :=
  value l + active l = MAX_CONCURRENT_DOWNLOADS /\ 0 <= value l.

(** [asyncio.Semaphore(MAX_CONCURRENT_DOWNLOADS)] and the fresh tasks. *)
Definition start (urls : list string) : Loop :=
  {| value := MAX_CONCURRENT_DOWNLOADS;
     tasks := map (fun _ => waiting) urls |}.

(** One transition; [None] when the event loop cannot take it. *)
Definition step (world : World) (urls : list string) (e : Event) (l : Loop)
  : option Loop :=
  match e with
  | Acquire i =>
      match nth_error (tasks l) i with
      | Some waiting =>
          if value l >? 0
          then Some {| value := value l - 1;
                       tasks := update i fetching (tasks l) |}
          else None
      | _ => None
      end
  | Complete i =>
      match nth_error (tasks l) i, nth_error urls i with
      | Some fetching, Some url =>
          Some {| value := value l + 1;
                  tasks := update i
                    (finished (returned (download_single_image world url)))
                    (tasks l) |}
      | _, _ => None
      end
  | Cancel i =>
      match nth_error (tasks l) i with
      | Some fetching =>
          Some {| value := value l + 1;
                  tasks := update i cancelled (tasks l) |}
      | Some waiting =>
          Some {| value := value l; tasks := update i cancelled (tasks l) |}
      | _ => None
      end
  end.

Fixpoint run (world : World) (urls : list string) (schedule : list Event)
    (l : Loop) : option Loop :=
  match schedule with
  | [] => Some l
  | e :: rest =>
      match step world urls e l with
      | Some l' => run world urls rest l'
      | None => None
      end
  end.

(** Task and URL belong together: a task that finished holds what the
    fetch of its URL returns. *)
Definition holds_result_of (world : World) (t : Task) (url : string) : Prop :=
  forall r, t = finished r -> r = returned (download_single_image world url).

End Gate.

(* ===================================================================== *)
(** ** Sample inputs *)
(* ===================================================================== *)

Module Sample.

Import SmartFilter ArticleProcessor.

(** A QR reader that finds nothing. *)
Definition nothing_read : result QRRead :=
  Ok {| decoded_text := ""; points := None |}.

(** An RGB image without any QR pattern. *)
Definition page (w h boxes edges : Z) : Image :=
  {| mode := "RGB"; size := (w, h); bgr := Ok tt;
     qr_gray := nothing_read; qr_inverted := nothing_read;
     qr_binary := nothing_read; qr_detect := Ok (false, None);
     text_boxes := Ok boxes; edge_pixels := Ok edges |}.

(** An RGB image on which the first pass decodes a QR code whose
    quadrilateral has area [area]. *)
Definition page_with_qr (w h : Z) (area : Q) (boxes edges : Z) : Image :=
  {| mode := "RGB"; size := (w, h); bgr := Ok tt;
     qr_gray := Ok {| decoded_text := "https://mp.weixin.qq.com/s/x";
                      points := Some {| contourArea := area |} |};
     qr_inverted := nothing_read;
     qr_binary := nothing_read; qr_detect := Ok (false, None);
     text_boxes := Ok boxes; edge_pixels := Ok edges |}.

(** [k] zero bytes. *)
Definition zeros (k : Z) : bytes := repeat Byte.x00 (Z.to_nat k).

Definition response (length_header : option string) (chunks : list bytes)
  : Response :=
  {| status := Ok tt; content_type := Some "image/jpeg";
     content_length := length_header; body := chunks;
     body_breaks := false |}.

(** A server that declares 20 MB on [/declared] and streams 12 MB in two
    chunks, with no length header, on [/streamed]. *)
Definition oversized : World :=
  {| stream_GET := fun url =>
       if String.eqb url "https://mmbiz.qpic.cn/declared"
       then Ok (response (Some "20000000") [[Byte.x01]])
       else if String.eqb url "https://mmbiz.qpic.cn/streamed"
       then Ok (response None [zeros 6000000; zeros 6000000; [Byte.x01]])
       else Raise LibraryError;
     Image_open := fun _ => open_failed;
     makedirs := Ok tt; Image_save := fun _ => Ok tt |}.

(** A server with a scanned page on [/page], an icon on [/icon], a QR
    poster on [/poster] and nothing else; the body's first byte tells
    the decoder which image it is. *)
Definition article : World :=
  {| stream_GET := fun url =>
       if String.eqb url "https://mmbiz.qpic.cn/page"
       then Ok (response (Some "1") [[Byte.x01]])
       else if String.eqb url "https://mmbiz.qpic.cn/icon"
       then Ok (response None [[Byte.x02]])
       else if String.eqb url "https://mmbiz.qpic.cn/poster"
       then Ok (response None [[Byte.x03]])
       else Raise LibraryError;
     Image_open := fun data =>
       match data with
       | [Byte.x01] => opened (page 1240 1754 40 9000)
       | [Byte.x02] => opened (page 299 1754 40 9000)
       | [Byte.x03] => opened (page_with_qr 600 800 (240000 # 1) 2 100)
       | _ => open_failed
       end;
     makedirs := Ok tt; Image_save := fun _ => Ok tt |}.

End Sample.

(* ===================================================================== *)
(** ** ArticleProcessor: extracting the image URLs *)
(* ===================================================================== *)

Module Extract.

(** An [<img>] tag as the loop of [extract_image_urls] reads it: the three
    attributes [img.get] is asked for, [None] when the tag has none. *)
Record ImgTag : Type := {
  data_src : option string;
  data_original : option string;
  src : option string
}.

(** [a or b] on the results of [img.get]: [a] unless it is [None] or [""]. *)
Definition py_or (a b : option string) : option string :=
  match a with
  | Some (String _ _) => a
  | _ => b
  end.

(** [s.strip()]. *)
Definition strip (s : string) : string := PyStr.rstrip (PyStr.lstrip s).

(** [src in seen], [seen] being the set of the URLs appended so far. *)
Definition seen_has (seen : list string) (src : string) : bool :=
  existsb (String.eqb src) seen.

(** The loop over [container.find_all("img")] (lines 358-371). *)
Fixpoint extract_loop (imgs : list ImgTag) (urls seen : list string)
  : list string :=
  match imgs with
  | [] => urls
  | img :: rest =>
      match py_or (py_or (data_src img) (data_original img)) (src img) with
      | Some (String _ _ as src) =>
          match strip src with
          | EmptyString => extract_loop rest urls seen
          | src =>
              let src := ArticleUrl.normalize_image_url src in
              if seen_has seen src then extract_loop rest urls seen
              else extract_loop rest (urls ++ [src])%list (src :: seen)
          end
      | _ => extract_loop rest urls seen
      end
  end.

(** [extract_image_urls], on the [<img>] tags of the container in document
    order (what BeautifulSoup's [find_all] returns). *)
Definition extract_image_urls (imgs : list ImgTag) : list string :=
  extract_loop imgs [] [].

(** The URL a tag contributes, if it contributes one. *)
Definition tag_url (img : ImgTag) : option string :=
  match py_or (py_or (data_src img) (data_original img)) (src img) with
  | Some (String _ _ as src) =>
      match strip src with
      | EmptyString => None
      | src => Some (ArticleUrl.normalize_image_url src)
      end
  | _ => None
  end.

(** A tag with nothing but [data-src]. *)
Definition lazy_img (url : string) : ImgTag :=
  {| data_src := Some url; data_original := None; src := None |}.

End Extract.

(* ===================================================================== *)
(** ** Images that differ in one respect *)
(* ===================================================================== *)

Module Variant.

(** The image on which no QR call finds anything. *)
Definition without_qr (img : Image) : Image :=
  {| mode := mode img; size := size img; bgr := bgr img;
     qr_gray := Sample.nothing_read; qr_inverted := Sample.nothing_read;
     qr_binary := Sample.nothing_read; qr_detect := Ok (false, None);
     text_boxes := text_boxes img; edge_pixels := edge_pixels img |}.

(** The image with width and height exchanged. *)
Definition transposed (img : Image) : Image :=
  {| mode := mode img; size := (snd (size img), fst (size img));
     bgr := bgr img;
     qr_gray := qr_gray img; qr_inverted := qr_inverted img;
     qr_binary := qr_binary img; qr_detect := qr_detect img;
     text_boxes := text_boxes img; edge_pixels := edge_pixels img |}.

(** The image with other results of the text and edge detectors. *)
Definition with_detections (img : Image) (boxes edges : Z) : Image :=
  {| mode := mode img; size := size img; bgr := bgr img;
     qr_gray := qr_gray img; qr_inverted := qr_inverted img;
     qr_binary := qr_binary img; qr_detect := qr_detect img;
     text_boxes := Ok boxes; edge_pixels := Ok edges |}.

(** An image whose QR detector raises on the first pass. *)
Definition qr_crashes (w h boxes edges : Z) : Image :=
  {| mode := "RGB"; size := (w, h); bgr := Ok tt;
     qr_gray := Raise LibraryError; qr_inverted := Sample.nothing_read;
     qr_binary := Sample.nothing_read; qr_detect := Ok (false, None);
     text_boxes := Ok boxes; edge_pixels := Ok edges |}.

(** An image on which nothing decodes but [detect] finds a pattern of
    area [area]. *)
Definition page_with_pattern (w h : Z) (area : Q) (boxes edges : Z) : Image :=
  {| mode := "RGB"; size := (w, h); bgr := Ok tt;
     qr_gray := Sample.nothing_read; qr_inverted := Sample.nothing_read;
     qr_binary := Sample.nothing_read;
     qr_detect := Ok (true, Some {| contourArea := area |});
     text_boxes := Ok boxes; edge_pixels := Ok edges |}.

(** A greyscale scan: mode [L], which the fetch does not convert; its
    array has two dimensions and line 119 raises on it. *)
Definition grey_page (w h : Z) : Image :=
  {| mode := "L"; size := (w, h); bgr := Raise LibraryError;
     qr_gray := Sample.nothing_read; qr_inverted := Sample.nothing_read;
     qr_binary := Sample.nothing_read; qr_detect := Ok (false, None);
     text_boxes := Ok 40; edge_pixels := Ok 9000 |}.

End Variant.

(* ===================================================================== *)
(** ** SmartFilter.decode *)
(* ===================================================================== *)

Module East.

(** The score map of the network as [decode] indexes it:
    [scores[0, 0, y][x]], with [scores.shape[2]] rows and
    [scores.shape[3]] columns. *)
Record Scores : Type := {
  height : nat;
  width : nat;
  scoresData : nat -> nat -> Q
}.

Section Decode.

(** Lines 275-291: the box [[x, y, w, h]] the floating-point arithmetic
    makes of the geometry at the cell [(y, x)]. *)
Variable cell_box : nat -> nat -> list Z.

(** The body of the inner loop: [continue] below the threshold, the two
    [append]s otherwise. *)
Definition decode_cell (o : Scores) (scoreThresh : Q) (y : nat)
    (acc : list (list Z) * list Q) (x : nat) : list (list Z) * list Q :=
  let score := scoresData o y x in
  if Qltb score scoreThresh then acc
  else ((fst acc ++ [cell_box y x])%list, (snd acc ++ [score])%list).

Definition decode_row (o : Scores) (scoreThresh : Q)
    (acc : list (list Z) * list Q) (y : nat) : list (list Z) * list Q :=
  fold_left (decode_cell o scoreThresh y) (seq 0 (width o)) acc.

(** [decode]: the detections and the confidences. *)
Definition decode (o : Scores) (scoreThresh : Q) : list (list Z) * list Q :=
  fold_left (decode_row o scoreThresh) (seq 0 (height o)) ([], []).

End Decode.

(** The cells of a map that reach the threshold, row by row. *)
Definition confident_cells (o : Scores) (scoreThresh : Q) : list (nat * nat) :=
  filter (fun c => negb (Qltb (scoresData o (fst c) (snd c)) scoreThresh))
         (list_prod (seq 0 (height o)) (seq 0 (width o))).

End East.

(* ===================================================================== *)
(** ** More servers *)
(* ===================================================================== *)

Module Server.

Import ArticleProcessor.

(** A server that answers every request with [resp]; every body decodes
    to a scanned page. *)
Definition always (resp : Response) : World :=
  {| stream_GET := fun _ => Ok resp;
     Image_open := fun _ => opened (Sample.page 1240 1754 40 9000);
     makedirs := Ok tt; Image_save := fun _ => Ok tt |}.

(** A markup page served with a mixed-case content type. *)
Definition login_page : Response :=
  {| status := Ok tt; content_type := Some "Text/HTML; charset=UTF-8";
     content_length := Some "3"; body := [[Byte.x01; Byte.x02; Byte.x03]];
     body_breaks := false |}.

(** An image served with a length header that is not a number. *)
Definition bad_length : Response :=
  {| status := Ok tt; content_type := Some "image/png";
     content_length := Some "12 bytes"; body := [[Byte.x01]];
     body_breaks := false |}.

(** An image of exactly [MAX_IMAGE_SIZE_BYTES] bytes in one chunk, with
    no length header. *)
Definition full_size : Response :=
  {| status := Ok tt; content_type := Some "image/png";
     content_length := None;
     body := [Sample.zeros MAX_IMAGE_SIZE_BYTES];
     body_breaks := false |}.



(** A server with a colour page on [/page] and a greyscale scan on
    [/scan]. *)
Definition scans : World :=
  {| stream_GET := fun url =>
       if String.eqb url "https://mmbiz.qpic.cn/page"
       then Ok (Sample.response None [[Byte.x01]])
       else if String.eqb url "https://mmbiz.qpic.cn/scan"
       then Ok (Sample.response None [[Byte.x02]])
       else Raise LibraryError;
     Image_open := fun data =>
       match data with
       | [Byte.x01] => opened (Sample.page 1240 1754 40 9000)
       | [Byte.x02] => opened (Variant.grey_page 1240 1754)
       | _ => open_failed
       end;
     makedirs := Ok tt; Image_save := fun _ => Ok tt |}.

End Server.

(* ===================================================================== *)
(** ** PDF assembly, the command line and the API handler *)
(* ===================================================================== *)

Module Service.

Import SmartFilter ArticleProcessor Extract.

(** The call [first.save(target, format="PDF", save_all=True,
    append_images=rest, resolution=100.0)]: where it writes ([None] for
    the buffer in memory) and the images it is given, [first] at the
    head. Pillow writes every frame of each of them as a page. *)
Record PdfSave : Type := {
  target : option string;
  saved_images : list Image
}.

(** Everything outside the process: the image server and decoder, the
    model file, the article server, the [<img>] tags BeautifulSoup finds
    in the container of a page, and whether a PDF save (with the
    [os.makedirs] before it, for a file) returns or raises. *)
Record Site : Type := {
  world : World;
  disk : ModelArtifact;
  fetch_html : string -> result string;
  find_all_img : string -> list ImgTag;
  pdf_save : PdfSave -> result unit
}.

(** [generate_pdf_bytes]: the save it made. *)
Definition generate_pdf_bytes (site : Site) (images : list Image)
  : result PdfSave :=
  match images with
  | [] => Raise ValueError
  | first :: rest =>
      let call := {| target := None; saved_images := first :: rest |} in
      _ <- pdf_save site call ;;
      Ok call
  end.

(** [save_images_as_pdf]: the save it made. *)
Definition save_images_as_pdf (site : Site) (images : list Image)
    (output_path : string) : result PdfSave :=
  match images with
  | [] => Raise ValueError
  | first :: rest =>
      let call := {| target := Some output_path;
                     saved_images := first :: rest |} in
      _ <- pdf_save site call ;;
      Ok call
  end.

(** The parsed command line. *)
Record Args : Type := {
  url : string;
  output : string;
  no_filter : bool;
  save_discarded : bool
}.

(** How the command ends: [sys.exit(code)], or a normal return after the
    PDF save. *)
Inductive Outcome : Type :=
| exit (code : Z)
| pdf_written (call : PdfSave).

(** The [try] block of [async_main]; [None] stands for [sys.exit(1)]. *)
Definition async_main_try (site : Site) (_net : option dnn_Net) (args : Args)
  : result (option PdfSave) :=
  html <- fetch_html site (url args) ;;
  let image_urls := extract_image_urls (find_all_img site html) in
  match image_urls with
  | [] => Ok None
  | _ =>
      b <- download_images (world site) (disk site) _net image_urls
             (no_filter args) (save_discarded args) ;;
      match images b with
      | [] => Ok None
      | _ =>
          call <- save_images_as_pdf site (images b) (output args) ;;
          Ok (Some call)
      end
  end.

(** [main]: [SmartFilter.load_model()] in a fresh process, then
    [async_main], whose handler turns every exception into [sys.exit(1)]. *)
Definition main (site : Site) (args : Args) : Outcome :=
  let _net := load_model (disk site) None in
  match async_main_try site _net args with
  | Ok (Some call) => pdf_written call
  | Ok None => exit 1
  | Raise _ => exit 1
  end.

(** The request body of [POST /api/convert]. *)
Record ConvertRequest : Type := {
  req_url : string;
  req_no_filter : bool
}.

(** What the handler can raise besides the exceptions of the pipeline. *)
Inductive ApiError : Type :=
| NameError (name : string)
| Propagated (e : exn).

(** The [detail] of an [HTTPException]. *)
Inductive Detail : Type :=
| cannot_fetch (e : exn)
| no_image_links
| no_valid_images
| str_of (e : ApiError).

Inductive HttpResponse : Type :=
| StreamingResponse (pdf : PdfSave)
| HTTPException (status_code : Z) (detail : Detail).

(** The names bound in the module namespace of [api.py]: what it imports
    (lines 12-28) and what it defines. None of them is a builtin. *)
Definition api_globals : list string :=
  ["logging"; "os"; "sys"; "BytesIO"; "FastAPI"; "HTTPException";
   "CORSMiddleware"; "StreamingResponse"; "BaseModel"; "ArticleProcessor";
   "logger"; "app"; "ConvertRequest"; "convert_to_pdf"; "health_check"].

(** Looking up a global name that is not a builtin. *)
Definition global_name (name : string) : option ApiError :=
  if existsb (String.eqb name) api_globals then None
  else Some (NameError name).

(** [convert_to_pdf]: the response, [_net] being the value of
    [SmartFilter._net] when the request arrives. *)
Definition convert_to_pdf (site : Site) (_net : option dnn_Net)
    (req : ConvertRequest) : HttpResponse :=
  match fetch_html site (req_url req) with
  | Raise e => HTTPException 400 (cannot_fetch e)
  | Ok html =>
      let image_urls := extract_image_urls (find_all_img site html) in
      match image_urls with
      | [] => HTTPException 400 no_image_links
      | _ =>
          match download_images (world site) (disk site) _net image_urls
                  (req_no_filter req) false with
          | Raise e => HTTPException 500 (str_of (Propagated e))
          | Ok b =>
              match images b with
              | [] => HTTPException 400 no_valid_images
              | _ =>
                  (* loop = asyncio.get_running_loop() *)
                  match global_name "asyncio" with
                  | Some e => HTTPException 500 (str_of e)
                  | None =>
                      match generate_pdf_bytes site (images b) with
                      | Raise e => HTTPException 500 (str_of (Propagated e))
                      | Ok pdf => StreamingResponse pdf
                      end
                  end
              end
          end
      end
  end.

(** An article with the page of [Sample.article] twice, an icon and a
    tag without a source. *)
Definition exam_site : Site :=
  {| world := Sample.article;
     disk := artifact_ok east_net;
     fetch_html := fun _ => Ok "<html>";
     find_all_img := fun _ =>
       [lazy_img "https://mmbiz.qpic.cn/page";
        {| data_src := Some ""; data_original := None;
           src := Some " https://mmbiz.qpic.cn/icon " |};
        {| data_src := None; data_original := None; src := None |};
        lazy_img "https://mmbiz.qpic.cn/page"];
     pdf_save := fun _ => Ok tt |}.

(** An article with a colour page and a greyscale scan. *)
Definition scan_site : Site :=
  {| world := Server.scans;
     disk := artifact_ok east_net;
     fetch_html := fun _ => Ok "<html>";
     find_all_img := fun _ =>
       [lazy_img "https://mmbiz.qpic.cn/page";
        lazy_img "https://mmbiz.qpic.cn/scan"];
     pdf_save := fun _ => Ok tt |}.

End Service.

(* ===================================================================== *)
(** * Properties *)
(* ===================================================================== *)

(** ** Strings *)

Section StringFacts.

Import PyStr.

Lemma string_app_assoc (a b c : string) : (a ++ b) ++ c = a ++ (b ++ c).
Proof.
  induction a as [|x a IH]; simpl; [reflexivity|now rewrite IH].
Qed.

Lemma string_app_nil_r (a : string) : a ++ "" = a.
Proof.
  induction a as [|x a IH]; simpl; [reflexivity|now rewrite IH].
Qed.

Lemma prefix_split (a s : string) :
  String.prefix a s = true -> exists m, s = a ++ m.
Proof.
  revert s; induction a as [|x a IH]; intros s H.
  - exists s; reflexivity.
  - destruct s as [|y s]; simpl in H; [discriminate|].
    destruct (ascii_dec x y) as [->|]; [|discriminate].
    destruct (IH _ H) as [m ->]. exists m; reflexivity.
Qed.

Lemma prefix_app (a m : string) : String.prefix a (a ++ m) = true.
Proof.
  induction a as [|x a IH]; simpl.
  - destruct m; reflexivity.
  - destruct (ascii_dec x x); [assumption|congruence].
Qed.

Lemma drop_app (a m : string) : drop (String.length a) (a ++ m) = m.
Proof.
  induction a as [|x a IH]; simpl; [reflexivity|assumption].
Qed.

Lemma app_inv_head_s (a b c : string) : a ++ b = a ++ c -> b = c.
Proof.
  induction a as [|x a IH]; simpl; intros H; [assumption|].
  injection H as H. auto.
Qed.

(** [rsplit_slash] cuts at the last slash. *)
Lemma rsplit_slash_app (a b : string) :
  rsplit_slash (a ++ String "/" b) =
  match rsplit_slash b with
  | Some (p, l) => Some (a ++ String "/" p, l)
  | None => Some (a, b)
  end.
Proof.
  induction a as [|x a IH]; simpl.
  - destruct (rsplit_slash b) as [[p l]|]; reflexivity.
  - rewrite IH. destruct (rsplit_slash b) as [[p l]|]; reflexivity.
Qed.

Lemma rsplit_slash_last (s p l : string) :
  rsplit_slash s = Some (p, l) ->
  s = p ++ String "/" l /\ rsplit_slash l = None.
Proof.
  revert p l; induction s as [|x s IH]; simpl; intros p l H; [discriminate|].
  destruct (rsplit_slash s) as [[p' l']|] eqn:E.
  - injection H as <- <-. destruct (IH _ _ eq_refl) as [-> Hl].
    split; [reflexivity|assumption].
  - destruct (Ascii.eqb_spec x "/") as [->|]; [|discriminate].
    injection H as <- <-. split; [reflexivity|assumption].
Qed.

Lemma isdigit_char_not (c x : ascii) :
  isdigit_char x = false -> isdigit_char c = true -> Ascii.eqb c x = false.
Proof.
  intros Hx Hc. destruct (Ascii.eqb_spec c x) as [->|]; congruence.
Qed.

Lemma all_digits_no_slash (d : string) :
  all_chars isdigit_char d = true -> rsplit_slash d = None.
Proof.
  induction d as [|c d IH]; simpl; [reflexivity|].
  intros H. apply andb_prop in H as [Hc Hd].
  rewrite (IH Hd).
  now rewrite (isdigit_char_not c "/" eq_refl Hc).
Qed.

Lemma isdigit_all (d : string) :
  isdigit d = true -> all_chars isdigit_char d = true /\ d <> "".
Proof.
  destruct d; simpl; [discriminate|]. intros H; split; [assumption|discriminate].
Qed.

End StringFacts.

(** ** URL canonicalisation *)

Section UrlFacts.

Import PyStr ArticleUrl.

Lemma non_qmark_run_no_qmark (s : string) : no_qmark (non_qmark_run s).
Proof.
  unfold no_qmark. induction s as [|c s IH]; simpl; [reflexivity|].
  destruct (Ascii.eqb c "?") eqn:E; simpl; [reflexivity|].
  now rewrite E, IH.
Qed.

Lemma no_qmark_app (a b : string) :
  no_qmark (a ++ b) <-> no_qmark a /\ no_qmark b.
Proof.
  unfold no_qmark. induction a as [|c a IH]; simpl.
  - tauto.
  - destruct (Ascii.eqb c "?") eqn:E.
    + split; [discriminate|intros [H _]; discriminate].
    + split.
      * intros H. injection H as H. apply IH in H as [Ha Hb].
        now rewrite Ha.
      * intros [Ha Hb]. injection Ha as Ha.
        f_equal. apply IH. split; assumption.
Qed.

Lemma non_qmark_run_app_query (a q : string) :
  no_qmark a -> (q = "" \/ exists q', q = String "?" q') ->
  non_qmark_run (a ++ q) = a.
Proof.
  unfold no_qmark. induction a as [|c a IH]; simpl; intros Ha Hq.
  - destruct Hq as [->|[q' ->]]; reflexivity.
  - destruct (Ascii.eqb c "?"); [discriminate|].
    injection Ha as Ha. now rewrite IH.
Qed.

Lemma all_digits_no_qmark (d : string) :
  all_chars isdigit_char d = true -> no_qmark d.
Proof.
  unfold no_qmark. induction d as [|c d IH]; simpl; [reflexivity|].
  intros H. apply andb_prop in H as [Hc Hd].
  rewrite (isdigit_char_not c "?" eq_refl Hc). now rewrite IH.
Qed.

(** What a match looks like. *)
Lemma match_here_shape (s m : string) :
  match_here s = Some m ->
  exists run, m = host_lit ++ run /\ run <> "" /\ no_qmark run.
Proof.
  unfold match_here. destruct (String.prefix host_lit s); [|discriminate].
  pose proof (non_qmark_run_no_qmark (drop (String.length host_lit) s)) as Hn.
  destruct (non_qmark_run (drop (String.length host_lit) s)) as [|c r] eqn:E;
    [discriminate|].
  intros H; injection H as <-. exists (String c r).
  split; [reflexivity|]. split; [discriminate|assumption].
Qed.

Lemma re_search_shape (s m : string) :
  re_search s = Some m ->
  exists run, m = host_lit ++ run /\ run <> "" /\ no_qmark run.
Proof.
  induction s as [|c s IH].
  - discriminate.
  - change (re_search (String c s))
      with (match match_here (String c s) with
            | Some m => Some m
            | None => re_search s
            end).
    destruct (match_here (String c s)) eqn:E.
    + intros H; injection H as <-. eapply match_here_shape; eassumption.
    + assumption.
Qed.

(** A URL that starts with the host, then a non-empty run without a
    question mark, then nothing or a query: the match is at position 0. *)
Lemma re_search_at_host (t q : string) :
  t <> "" -> no_qmark t -> (q = "" \/ exists q', q = String "?" q') ->
  re_search (host_lit ++ t ++ q) = Some (host_lit ++ t).
Proof.
  intros Ht Hn Hq.
  assert (E : match_here (host_lit ++ t ++ q) = Some (host_lit ++ t)).
  { unfold match_here. rewrite prefix_app, drop_app.
    rewrite (non_qmark_run_app_query t q Hn Hq).
    destruct t; [congruence|reflexivity]. }
  destruct (host_lit ++ t ++ q) as [|c r].
  - discriminate.
  - change (re_search (String c r))
      with (match match_here (String c r) with
            | Some m => Some m
            | None => re_search r
            end).
    now rewrite E.
Qed.

(** The core of the rewriting: on [P/D] or [P/D?Q] the result is [P/0]. *)
Lemma normalize_numeric (p d q : string) :
  String.prefix host_lit (p ++ "/") = true ->
  no_qmark p ->
  isdigit d = true ->
  (q = "" \/ exists q', q = String "?" q') ->
  normalize_image_url (p ++ "/" ++ d ++ q) = p ++ "/0".
Proof.
  intros Hp Hn Hd Hq.
  destruct (isdigit_all d Hd) as [Hall Hne].
  destruct (prefix_split _ _ Hp) as [m Hm].
  assert (Hnm : no_qmark m).
  { assert (H : no_qmark (host_lit ++ m)).
    { rewrite <- Hm. apply no_qmark_app. split; [assumption|reflexivity]. }
    apply no_qmark_app in H. tauto. }
  assert (Eurl : p ++ "/" ++ d ++ q = host_lit ++ (m ++ d) ++ q).
  { rewrite <- (string_app_assoc p "/" (d ++ q)), Hm.
    now rewrite !string_app_assoc. }
  unfold normalize_image_url. rewrite Eurl.
  rewrite re_search_at_host; [| |  |assumption].
  - rewrite <- string_app_assoc, <- Hm.
    rewrite string_app_assoc. simpl ("/" ++ d).
    rewrite rsplit_slash_app, (all_digits_no_slash d Hall), Hd.
    reflexivity.
  - destruct m; simpl; [assumption|discriminate].
  - apply no_qmark_app. split; [assumption|now apply all_digits_no_qmark].
Qed.

Lemma no_qmark_contains (s : string) :
  no_qmark s -> contains "?" s = false.
Proof.
  unfold no_qmark. induction s as [|c s IH]; [reflexivity|].
  cbn [contains non_qmark_run String.prefix].
  destruct (Ascii.eqb_spec c "?") as [->|Hc]; [discriminate|].
  destruct (ascii_dec "?" c) as [<-|_]; [congruence|].
  intros H. injection H as H. exact (IH H).
Qed.

Lemma match_here_contains (s m : string) :
  match_here s = Some m -> contains host_lit s = true.
Proof.
  unfold match_here. destruct (String.prefix host_lit s) eqn:E; [|discriminate].
  intros _. destruct s; cbn [contains]; now rewrite E.
Qed.

Lemma re_search_contains (s m : string) :
  re_search s = Some m -> contains host_lit s = true.
Proof.
  induction s as [|c s IH].
  - discriminate.
  - change (re_search (String c s))
      with (match match_here (String c s) with
            | Some m => Some m
            | None => re_search s
            end).
    destruct (match_here (String c s)) eqn:E.
    + intros _. eapply match_here_contains; eassumption.
    + intros H. cbn [contains]. rewrite (IH H).
      destruct (String.prefix host_lit (String c s)); reflexivity.
Qed.



(** Either the URL is returned as it is, or the result is [P/0] for a
    [P] that starts with the host and has no question mark. *)
Lemma normalize_cases (url : string) :
  normalize_image_url url = url \/
  exists p, normalize_image_url url = p ++ "/0"
            /\ String.prefix host_lit (p ++ "/") = true /\ no_qmark p.
Proof.
  unfold normalize_image_url.
  destruct (re_search url) as [base|] eqn:Es; [|now left].
  destruct (rsplit_slash base) as [[p l]|] eqn:Er; [|now left].
  destruct (isdigit l); [|now left].
  right. exists p. split; [reflexivity|].
  destruct (re_search_shape _ _ Es) as (run & -> & _ & Hrun).
  change (host_lit ++ run)
    with ("https://mmbiz.qpic.cn" ++ String "/" run) in Er.
  rewrite rsplit_slash_app in Er.
  destruct (rsplit_slash run) as [[p' l']|] eqn:Er'.
  - injection Er as <- <-.
    apply rsplit_slash_last in Er' as [-> _].
    apply no_qmark_app in Hrun as [Hp' _].
    split.
    + exact (prefix_app host_lit (p' ++ "/")).
    + apply (proj2 (no_qmark_app host_lit p')).
      split; [reflexivity|assumption].
  - injection Er as <- <-. split; reflexivity.
Qed.

Lemma contains_qmark (s : string) :
  contains "?" s = false -> no_qmark s.
Proof.
  unfold no_qmark. induction s as [|c s IH]; [reflexivity|].
  cbn [contains non_qmark_run String.prefix].
  destruct (Ascii.eqb_spec c "?") as [->|Hc].
  - destruct (ascii_dec "?" "?"); [|congruence].
    destruct s; discriminate.
  - destruct (ascii_dec "?" c) as [<-|_]; [congruence|].
    intros H. now rewrite IH.
Qed.

Lemma with_query_suffix (base : string) (query : option string) :
  exists q, with_query base query = base ++ q
            /\ (q = "" \/ exists q', q = String "?" q').
Proof.
  destruct query as [q|]; simpl.
  - exists (String "?" q). split; [reflexivity|]. right. now exists q.
  - exists "". split; [now rewrite string_app_nil_r|now left].
Qed.

End UrlFacts.

(** C9. [normalize_image_url] is idempotent: normalising a normalised URL
    changes nothing. The rewritten segment [0] is numeric and is rewritten
    to itself. *)
Theorem normalize_image_url_idempotent (url : string) :
  ArticleUrl.normalize_image_url (ArticleUrl.normalize_image_url url)
  = ArticleUrl.normalize_image_url url.
Proof.
  destruct (normalize_cases url) as [E|(p & E & Hp & Hn)]; rewrite E.
  - exact E.
  - exact (normalize_numeric p "0" "" Hp Hn eq_refl (or_introl eq_refl)).
Qed.




(** ** The classifier *)

Section FilterFacts.

Import SmartFilter.

Lemma gate_passed (w h : Z) :
  MIN_IMAGE_DIMENSION <= w -> MIN_IMAGE_DIMENSION <= h ->
  (w <? MIN_IMAGE_DIMENSION) || (h <? MIN_IMAGE_DIMENSION) = false.
Proof.
  intros Hw Hh. apply orb_false_intro; apply Z.ltb_ge; assumption.
Qed.

Lemma gate_failed (w h : Z) :
  ~ (MIN_IMAGE_DIMENSION <= w /\ MIN_IMAGE_DIMENSION <= h) ->
  (w <? MIN_IMAGE_DIMENSION) || (h <? MIN_IMAGE_DIMENSION) = true.
Proof.
  intros H. destruct (Z.ltb_spec w MIN_IMAGE_DIMENSION); [reflexivity|].
  destruct (Z.ltb_spec h MIN_IMAGE_DIMENSION); [reflexivity|]. tauto.
Qed.

(** The quotient line 206 computes once the gate was passed. *)
Lemma aspect_ratio_of_gate (w h : Z) :
  MIN_IMAGE_DIMENSION <= w -> MIN_IMAGE_DIMENSION <= h ->
  aspect_ratio_of w h = Ok (inject_Z (Z.max w h) / inject_Z (Z.min w h))%Q.
Proof.
  unfold MIN_IMAGE_DIMENSION, aspect_ratio_of, true_div, float_div.
  intros Hw Hh.
  destruct (Z.gtb_spec (Z.min w h) 0) as [_|H]; [|lia].
  destruct (Z.eqb_spec (Z.min w h) 0) as [H|_]; [lia|reflexivity].
Qed.

Lemma edge_density_gate (w h e : Z) :
  MIN_IMAGE_DIMENSION <= w -> MIN_IMAGE_DIMENSION <= h ->
  true_div e (w * h) = Ok (inject_Z e / inject_Z (w * h))%Q.
Proof.
  unfold MIN_IMAGE_DIMENSION, true_div, float_div. intros Hw Hh.
  destruct (Z.eqb_spec (w * h) 0) as [H|_]; [nia|reflexivity].
Qed.

(** The function up to the decision logic, for an image that passes the
    gate and whose QR block falls through. *)
Lemma is_valid_exam_paper_falls_through
    (disk : ModelArtifact) (_net : option dnn_Net) (img : Image)
    (flag : bool) (qr : QrReason) :
  MIN_IMAGE_DIMENSION <= fst (size img) ->
  MIN_IMAGE_DIMENSION <= snd (size img) ->
  bgr img = Ok tt ->
  qr_stage img = qr_continue flag qr ->
  is_valid_exam_paper disk _net img =
  match load_model disk _net with
  | None => Ok ((true, model_not_loaded), None)
  | Some n =>
      boxes <- text_boxes img ;;
      v <- decision img boxes flag qr ;; Ok (v, Some n)
  end.
Proof.
  unfold is_valid_exam_paper. destruct (size img) as [w h]; simpl fst; simpl snd.
  intros Hw Hh -> ->. rewrite (gate_passed w h Hw Hh). cbn [bind].
  destruct (load_model disk _net); reflexivity.
Qed.



Lemma Qgtb_true (x y : Q) : (y < x)%Q -> Qgtb x y = true.
Proof.
  intros H. unfold Qgtb. apply negb_true_iff.
  destruct (Qle_bool x y) eqn:E; [|reflexivity].
  apply Qle_bool_iff in E. exfalso. exact (Qlt_not_le _ _ H E).
Qed.

Lemma Qgtb_false (x y : Q) : (x <= y)%Q -> Qgtb x y = false.
Proof.
  intros H. unfold Qgtb. apply negb_false_iff. now apply Qle_bool_iff.
Qed.

Lemma Qltb_true (x y : Q) : (x < y)%Q -> Qltb x y = true.
Proof. exact (Qgtb_true y x). Qed.

Lemma Qltb_false (x y : Q) : (y <= x)%Q -> Qltb x y = false.
Proof. exact (Qgtb_false y x). Qed.

(** Rule 1 on its own. *)
Lemma decision_many_boxes (img : Image) (boxes : Z) (flag : bool)
    (qr : QrReason) (a : Q) :
  aspect_ratio_of (fst (size img)) (snd (size img)) = Ok a ->
  8 <= boxes ->
  decision img boxes flag qr = Ok (true, many_text_regions boxes).
Proof.
  unfold decision. destruct (size img) as [w h]; simpl fst; simpl snd.
  intros -> H. simpl.
  destruct (Z.geb_spec boxes 8) as [_|Hlt]; [reflexivity|lia].
Qed.

(** The decision logic returns once the gate was passed, provided the
    edge detector does when it is asked (fewer than 4 boxes, no flag). *)
Lemma decision_returns (img : Image) (boxes k : Z) (flag : bool)
    (qr : QrReason) :
  MIN_IMAGE_DIMENSION <= fst (size img) ->
  MIN_IMAGE_DIMENSION <= snd (size img) ->
  edge_pixels img = Ok k ->
  exists v, decision img boxes flag qr = Ok v.
Proof.
  unfold decision. destruct (size img) as [w h]; simpl fst; simpl snd.
  intros Hw Hh ->.
  rewrite (aspect_ratio_of_gate w h Hw Hh). cbn [bind].
  rewrite (edge_density_gate w h _ Hw Hh). cbn [bind].
  repeat match goal with
         | |- context [if ?b then _ else _] => destruct b
         end; eexists; reflexivity.
Qed.


End FilterFacts.







(** C4. The thresholds of the decision logic, for an image that reaches
    it: it passes the dimension gate, line 119 returns, the QR block falls
    through, the model is loaded and the text detector returns its count.
    With 8 text boxes the image is kept, whatever the QR flag. With 7 text
    boxes and no QR flag it is kept when the aspect ratio is exactly 1.3
    and discarded when it is below. With no text box it is discarded when
    the edge density is exactly 0.05 and, without a QR flag, kept when it
    is above. *)
Theorem cascade_threshold_strictness
    (disk : SmartFilter.ModelArtifact) (_net : option SmartFilter.dnn_Net)
    (n : SmartFilter.dnn_Net) :
  SmartFilter.load_model disk _net = Some n ->
  let reaches img flag :=
    MIN_IMAGE_DIMENSION <= fst (size img)
    /\ MIN_IMAGE_DIMENSION <= snd (size img)
    /\ bgr img = Ok tt
    /\ exists qr, SmartFilter.qr_stage img = SmartFilter.qr_continue flag qr in
  let verdict img keep :=
    exists reason,
      SmartFilter.is_valid_exam_paper disk _net img = Ok ((keep, reason), Some n) in
  let aspectRatio img a :=
    SmartFilter.aspect_ratio_of (fst (size img)) (snd (size img)) = Ok a in
  let edgeDensity img e :=
    (k <- edge_pixels img ;; true_div k (fst (size img) * snd (size img)))
    = Ok e in
  (forall img flag, reaches img flag -> text_boxes img = Ok 8 ->
     verdict img true)
  /\ (forall img a, reaches img false -> text_boxes img = Ok 7 ->
      aspectRatio img a ->
      ((a == 13 # 10)%Q -> verdict img true)
      /\ ((a < 13 # 10)%Q -> verdict img false))
  /\ (forall img flag e, reaches img flag -> text_boxes img = Ok 0 ->
      edgeDensity img e ->
      ((e == 1 # 20)%Q -> verdict img false)
      /\ ((1 # 20 < e)%Q -> flag = false -> verdict img true)).
Proof.
  intros Hload reaches verdict aspectRatio edgeDensity.
  assert (Hstep : forall img boxes flag qr v,
            MIN_IMAGE_DIMENSION <= fst (size img) ->
            MIN_IMAGE_DIMENSION <= snd (size img) ->
            bgr img = Ok tt ->
            SmartFilter.qr_stage img = SmartFilter.qr_continue flag qr ->
            text_boxes img = Ok boxes ->
            SmartFilter.decision img boxes flag qr = Ok v ->
            verdict img (fst v)).
  { intros img boxes flag qr [keep reason] Hw Hh Hb Hqr Hn Hd. exists reason.
    rewrite (is_valid_exam_paper_falls_through disk _net img flag qr
               Hw Hh Hb Hqr).
    rewrite Hload, Hn. cbn [bind]. now rewrite Hd. }
  split; [|split].
  - intros img flag (Hw & Hh & Hb & qr & Hqr) Hn.
    apply (Hstep img 8 flag qr (true, SmartFilter.many_text_regions 8));
      try assumption.
    apply (decision_many_boxes img 8 flag qr _ (aspect_ratio_of_gate _ _ Hw Hh)).
    lia.
  - intros img a (Hw & Hh & Hb & qr & Hqr) Hn Ha. unfold aspectRatio in Ha.
    split; intros Hcmp.
    + apply (Hstep img 7 false qr (true, SmartFilter.moderate_text 7));
        try assumption.
      unfold SmartFilter.decision. destruct (size img) as [w h].
      simpl fst in Ha; simpl snd in Ha. rewrite Ha. simpl.
      rewrite Qltb_false; [reflexivity|]. rewrite Hcmp. apply Qle_refl.
    + apply (Hstep img 7 false qr (false, SmartFilter.card_like 7 a));
        try assumption.
      unfold SmartFilter.decision. destruct (size img) as [w h].
      simpl fst in Ha; simpl snd in Ha. rewrite Ha. simpl.
      now rewrite Qltb_true.
  - intros img flag e (Hw & Hh & Hb & qr & Hqr) Hn He.
    unfold edgeDensity in He.
    pose proof (aspect_ratio_of_gate _ _ Hw Hh) as Ha.
    destruct (edge_pixels img) as [k|] eqn:Ek; [|discriminate He].
    cbn [bind] in He.
    split.
    + intros Hcmp.
      assert (Hd : exists r, SmartFilter.decision img 0 flag qr = Ok (false, r)).
      { unfold SmartFilter.decision. destruct (size img) as [w h].
        simpl fst in *; simpl snd in *. rewrite Ha. simpl.
        destruct flag; [eexists; reflexivity|].
        rewrite Ek. cbn [bind]. rewrite He. simpl.
        rewrite (Qgtb_false e (1 # 20)) by (rewrite Hcmp; apply Qle_refl).
        destruct (Qgtb _ 4); eexists; reflexivity. }
      destruct Hd as [r Hd].
      exact (Hstep img 0 flag qr (false, r) Hw Hh Hb Hqr Hn Hd).
    + intros Hcmp ->.
      apply (Hstep img 0 false qr (true, SmartFilter.no_text_rich_lines e));
        try assumption.
      unfold SmartFilter.decision. destruct (size img) as [w h].
      simpl fst in *; simpl snd in *. rewrite Ha. simpl.
      rewrite Ek. cbn [bind]. rewrite He. simpl. now rewrite Qgtb_true.
Qed.

Lemma cascade_threshold_strictness_witness :
  let disk := SmartFilter.artifact_ok SmartFilter.east_net in
  let verdict img keep :=
    exists reason,
      SmartFilter.is_valid_exam_paper disk None img
      = Ok ((keep, reason), Some SmartFilter.east_net) in
  verdict (Sample.page 600 800 8 0) true
  /\ verdict (Sample.page 300 390 7 0) true
  /\ verdict (Sample.page 300 389 7 0) false
  /\ verdict (Sample.page 300 400 0 6000) false
  /\ verdict (Sample.page 300 400 0 6001) true.
Proof.
  intros disk verdict.
  destruct (cascade_threshold_strictness disk None SmartFilter.east_net eq_refl)
    as (T8 & T7 & T0).
  assert (R : forall w h b e, (MIN_IMAGE_DIMENSION <=? w) = true ->
            (MIN_IMAGE_DIMENSION <=? h) = true ->
            MIN_IMAGE_DIMENSION <= fst (size (Sample.page w h b e))
            /\ MIN_IMAGE_DIMENSION <= snd (size (Sample.page w h b e))
            /\ bgr (Sample.page w h b e) = Ok tt
            /\ exists qr, SmartFilter.qr_stage (Sample.page w h b e)
                          = SmartFilter.qr_continue false qr).
  { intros w h b e Hw Hh. split; [now apply Z.leb_le|].
    split; [now apply Z.leb_le|]. split; [reflexivity|].
    exists SmartFilter.qr_none.
    unfold SmartFilter.qr_stage, SmartFilter.qr_try. simpl.
    reflexivity. }
  split; [|split; [|split; [|split]]].
  - apply (T8 (Sample.page 600 800 8 0) false); [now apply R|reflexivity].
  - apply (T7 (Sample.page 300 390 7 0) (390 # 300)%Q);
      [now apply R|reflexivity|reflexivity|reflexivity].
  - apply (T7 (Sample.page 300 389 7 0) (389 # 300)%Q);
      [now apply R|reflexivity|reflexivity|reflexivity].
  - apply (T0 (Sample.page 300 400 0 6000) false (6000 # 120000)%Q);
      [now apply R|reflexivity|reflexivity|reflexivity].
  - apply (T0 (Sample.page 300 400 0 6001) false (6001 # 120000)%Q);
      [now apply R|reflexivity|reflexivity|reflexivity|reflexivity].
Defined.

(** C10. The aspect ratio of line 206 never divides by zero. The guard:
    for all [w] and [h] the expression returns, with the quotient when
    [min(w, h) > 0] and with [1.0] otherwise. The gate: an image that
    fails the minimum-dimension test returns before that line, and for one
    that passes, the guard holds, so the quotient is taken and the
    fallback is not. *)
Theorem aspect_ratio_never_divides_by_zero :
  (forall w h, exists a, SmartFilter.aspect_ratio_of w h = Ok a)
  /\ (forall w h, Z.min w h <= 0 -> SmartFilter.aspect_ratio_of w h = Ok 1%Q)
  /\ (forall disk _net img,
       ~ (MIN_IMAGE_DIMENSION <= fst (size img)
          /\ MIN_IMAGE_DIMENSION <= snd (size img)) ->
       SmartFilter.is_valid_exam_paper disk _net img
       = Ok ((false, SmartFilter.too_small (fst (size img)) (snd (size img))),
             _net))
  /\ (forall w h, MIN_IMAGE_DIMENSION <= w -> MIN_IMAGE_DIMENSION <= h ->
       (Z.min w h >? 0) = true
       /\ SmartFilter.aspect_ratio_of w h
          = Ok (inject_Z (Z.max w h) / inject_Z (Z.min w h))%Q).
Proof.
  split; [|split; [|split]].
  - intros w h. unfold SmartFilter.aspect_ratio_of, true_div, float_div.
    destruct (Z.gtb_spec (Z.min w h) 0) as [Hpos|_]; [|eexists; reflexivity].
    destruct (Z.eqb_spec (Z.min w h) 0) as [H0|_]; [lia|eexists; reflexivity].
  - intros w h H. unfold SmartFilter.aspect_ratio_of.
    destruct (Z.gtb_spec (Z.min w h) 0) as [Hpos|_]; [lia|reflexivity].
  - intros disk _net img H. unfold SmartFilter.is_valid_exam_paper.
    destruct (size img) as [w h]; simpl fst in *; simpl snd in *.
    now rewrite (gate_failed w h H).
  - intros w h Hw Hh. split; [|now apply aspect_ratio_of_gate].
    unfold MIN_IMAGE_DIMENSION in *. apply Z.gtb_lt. lia.
Qed.

Lemma aspect_ratio_never_divides_by_zero_witness :
  SmartFilter.aspect_ratio_of 0 0 = Ok 1%Q
  /\ SmartFilter.is_valid_exam_paper SmartFilter.artifact_missing None
       (Sample.page 299 0 0 0)
     = Ok ((false, SmartFilter.too_small 299 0), None)
  /\ ((Z.min 300 424 >? 0) = true
      /\ SmartFilter.aspect_ratio_of 300 424
         = Ok (inject_Z (Z.max 300 424) / inject_Z (Z.min 300 424))%Q).
Proof.
  destruct aspect_ratio_never_divides_by_zero as (_ & F & G & Q).
  split; [|split].
  - apply (F 0 0). vm_compute. discriminate.
  - apply (G SmartFilter.artifact_missing None (Sample.page 299 0 0 0)).
    vm_compute. intros [H _]. apply H. reflexivity.
  - apply (Q 300 424); vm_compute; discriminate.
Defined.

(** ** The fetch *)

Section FetchFacts.

Import SmartFilter ArticleProcessor.
Local Open Scope list_scope.

Lemma len_app (a b : bytes) : len (a ++ b) = len a + len b.
Proof. unfold len. rewrite length_app. lia. Qed.

Lemma len_nonneg (a : bytes) : 0 <= len a.
Proof. unfold len. lia. Qed.

(** The loop stops at the first chunk that takes the buffer over the
    limit; the chunks after it are not read. *)
Lemma read_body_overflow (pre rest : list bytes) (chunk acc : bytes) (n : nat) :
  len acc + len (List.concat pre) <= MAX_IMAGE_SIZE_BYTES ->
  MAX_IMAGE_SIZE_BYTES < len acc + len (List.concat pre) + len chunk ->
  read_body (pre ++ chunk :: rest) acc n = (None, (n + S (List.length pre))%nat).
Proof.
  revert acc n. induction pre as [|c pre IH]; intros acc n Hle Hgt; simpl in *.
  - rewrite len_app.
    destruct (Z.gtb_spec (len acc + len chunk) MAX_IMAGE_SIZE_BYTES) as [_|H];
      [|unfold len in *; simpl in *; lia].
    f_equal. lia.
  - rewrite !len_app in *. pose proof (len_nonneg (List.concat pre)).
    destruct (Z.gtb_spec (len acc + len c) MAX_IMAGE_SIZE_BYTES) as [H1|_].
    + lia.
    + rewrite IH; rewrite ?len_app; try lia. f_equal. lia.
Qed.

(** A body within the limit is read to its end. *)
Lemma read_body_fits (chunks : list bytes) (acc : bytes) (n : nat) :
  len acc + len (List.concat chunks) <= MAX_IMAGE_SIZE_BYTES ->
  read_body chunks acc n
  = (Some (acc ++ List.concat chunks)%list, (n + List.length chunks)%nat).
Proof.
  revert acc n. induction chunks as [|c chunks IH]; intros acc n Hle; simpl in *.
  - rewrite app_nil_r. f_equal. lia.
  - rewrite !len_app in *. pose proof (len_nonneg (List.concat chunks)).
    destruct (Z.gtb_spec (len acc + len c) MAX_IMAGE_SIZE_BYTES) as [H1|_].
    + lia.
    + rewrite IH; rewrite ?len_app; try lia.
      rewrite <- app_assoc. f_equal. lia.
Qed.

(** Whatever [decode_and_gate] lets through has both sides at least 300. *)
Lemma decode_and_gate_dimensions (world : World) (url : string)
    (img_data : bytes) (c : Candidate) :
  decode_and_gate world url img_data = Some c ->
  MIN_IMAGE_DIMENSION <= fst (size (fst (fst c)))
  /\ MIN_IMAGE_DIMENSION <= snd (size (fst (fst c))).
Proof.
  unfold decode_and_gate.
  destruct (Image_open world img_data) as [img| |]; try discriminate.
  match goal with
  | |- context [if ?b then convert_RGB img else img] =>
      set (img' := if b then convert_RGB img else img)
  end.
  destruct (size img') as [w h] eqn:E.
  destruct (Z.ltb_spec w MIN_IMAGE_DIMENSION); simpl; [discriminate|].
  destruct (Z.ltb_spec h MIN_IMAGE_DIMENSION); simpl; [discriminate|].
  intros H'; injection H' as <-. simpl. rewrite E. simpl. split; assumption.
Qed.

Lemma download_single_image_dimensions (world : World) (url : string)
    (c : Candidate) :
  returned (download_single_image world url) = Some c ->
  MIN_IMAGE_DIMENSION <= fst (size (fst (fst c)))
  /\ MIN_IMAGE_DIMENSION <= snd (size (fst (fst c))).
Proof.
  unfold download_single_image, download_try.
  destruct (stream_GET world url) as [resp|]; [|discriminate].
  destruct (status resp); [|discriminate].
  destruct (_ || _); [discriminate|].
  destruct (length_exceeds (content_length resp)) as [[|]|]; try discriminate.
  destruct (read_body (body resp) [] 0) as [[data|] n]; [|discriminate].
  destruct (body_breaks resp); [discriminate|].
  simpl. apply decode_and_gate_dimensions.
Qed.

Lemma len_zeros (k : Z) : 0 <= k -> len (Sample.zeros k) = k.
Proof.
  intros H. unfold len, Sample.zeros. rewrite repeat_length. now apply Z2Nat.id.
Qed.

Lemma len_single_zeros (k : Z) :
  0 <= k -> len (List.concat [Sample.zeros k]) = k.
Proof.
  intros H. change (List.concat [Sample.zeros k]) with (Sample.zeros k ++ []).
  rewrite len_app, (len_zeros k H). apply Z.add_0_r.
Qed.

End FetchFacts.

(** C5. The size gate of [download_single_image]. A response whose
    [Content-Length] reads as a number above 10 MB makes the call return
    [None] with no chunk of the body read. A response that gets past the
    header test (no header, an empty one, or a number within the limit)
    and whose body goes over 10 MB at some chunk makes the call return
    [None] with that chunk the last one read. *)
Theorem download_single_image_size_gate
    (world : ArticleProcessor.World) (url : string)
    (resp : ArticleProcessor.Response) :
  ArticleProcessor.stream_GET world url = Ok resp ->
  (forall s n,
      ArticleProcessor.content_length resp = Some s ->
      PyStr.int s = Some n ->
      MAX_IMAGE_SIZE_BYTES < n ->
      ArticleProcessor.download_single_image world url
      = {| ArticleProcessor.returned := None;
           ArticleProcessor.chunks_read := 0 |})
  /\ (forall pre chunk rest,
      ArticleProcessor.status resp = Ok tt ->
      PyStr.contains "text/html"
        (PyStr.lower (ArticleProcessor.header_or
                        (ArticleProcessor.content_type resp) "")) = false ->
      PyStr.contains "image/svg"
        (PyStr.lower (ArticleProcessor.header_or
                        (ArticleProcessor.content_type resp) "")) = false ->
      ArticleProcessor.length_exceeds (ArticleProcessor.content_length resp)
        = Ok false ->
      ArticleProcessor.body resp = (pre ++ chunk :: rest)%list ->
      ArticleProcessor.len (List.concat pre) <= MAX_IMAGE_SIZE_BYTES ->
      MAX_IMAGE_SIZE_BYTES
        < ArticleProcessor.len (List.concat pre) + ArticleProcessor.len chunk ->
      ArticleProcessor.download_single_image world url
      = {| ArticleProcessor.returned := None;
           ArticleProcessor.chunks_read := S (List.length pre) |}).
Proof.
  intros Hget. split.
  - intros s n Hs Hint Hn.
    unfold ArticleProcessor.download_single_image, ArticleProcessor.download_try.
    rewrite Hget. destruct (ArticleProcessor.status resp); [|reflexivity].
    destruct (_ || _); [reflexivity|].
    rewrite Hs. unfold ArticleProcessor.length_exceeds.
    destruct s as [|c s]; [discriminate|]. rewrite Hint.
    destruct (Z.gtb_spec n MAX_IMAGE_SIZE_BYTES) as [_|H]; [reflexivity|lia].
  - intros pre chunk rest Hst Hhtml Hsvg Hlen Hbody Hle Hgt.
    unfold ArticleProcessor.download_single_image, ArticleProcessor.download_try.
    rewrite Hget, Hst, Hhtml, Hsvg, Hlen, Hbody. simpl orb. cbv iota.
    rewrite (read_body_overflow pre rest chunk [] 0); [reflexivity| |];
      unfold ArticleProcessor.len in *; simpl List.length; lia.
Qed.

Lemma download_single_image_size_gate_witness :
  ArticleProcessor.download_single_image Sample.oversized
    "https://mmbiz.qpic.cn/declared"
  = {| ArticleProcessor.returned := None; ArticleProcessor.chunks_read := 0 |}
  /\ ArticleProcessor.download_single_image Sample.oversized
       "https://mmbiz.qpic.cn/streamed"
     = {| ArticleProcessor.returned := None; ArticleProcessor.chunks_read := 2 |}.
Proof.
  split.
  - exact (proj1 (download_single_image_size_gate Sample.oversized
                    "https://mmbiz.qpic.cn/declared"
                    (Sample.response (Some "20000000") [[Byte.x01]]) eq_refl)
             "20000000" 20000000 eq_refl eq_refl eq_refl).
  - assert (H1 : ArticleProcessor.len (List.concat [Sample.zeros 6000000])
                 <= MAX_IMAGE_SIZE_BYTES).
    { rewrite len_single_zeros by lia. unfold MAX_IMAGE_SIZE_BYTES. lia. }
    assert (H2 : MAX_IMAGE_SIZE_BYTES
                 < ArticleProcessor.len (List.concat [Sample.zeros 6000000])
                   + ArticleProcessor.len (Sample.zeros 6000000)).
    { rewrite len_single_zeros, len_zeros by lia.
      unfold MAX_IMAGE_SIZE_BYTES. lia. }
    exact (proj2 (download_single_image_size_gate Sample.oversized
                    "https://mmbiz.qpic.cn/streamed"
                    (Sample.response None
                       [Sample.zeros 6000000; Sample.zeros 6000000; [Byte.x01]])
                    eq_refl)
             [Sample.zeros 6000000] (Sample.zeros 6000000) [[Byte.x01]]
             eq_refl eq_refl eq_refl eq_refl eq_refl H1 H2).
Defined.

(** ** The batch *)

Section BatchFacts.

Import SmartFilter ArticleProcessor.
Local Open Scope list_scope.

Lemma load_model_idempotent (disk : ModelArtifact) (s : option dnn_Net) :
  load_model disk (load_model disk s) = load_model disk s.
Proof. destruct s, disk; reflexivity. Qed.

(** The classifier depends on [_net] only through what [load_model]
    makes of it: the verdict, or the exception, is the same from two
    states that load alike, and so is what a later load finds. *)
Lemma is_valid_exam_paper_state
    (disk : ModelArtifact) (s s2 : option dnn_Net) (img : Image) :
  load_model disk s2 = load_model disk s ->
  match is_valid_exam_paper disk s img with
  | Ok (v, s') =>
      (s' = s \/ s' = load_model disk s)
      /\ load_model disk s' = load_model disk s
      /\ exists s2', is_valid_exam_paper disk s2 img = Ok (v, s2')
  | Raise e => is_valid_exam_paper disk s2 img = Raise e
  end.
Proof.
  intros Hs. unfold is_valid_exam_paper.
  destruct (size img) as [w h].
  destruct (_ || _).
  - split; [now left|]. split; [reflexivity|]. eexists; reflexivity.
  - destruct (bgr img) as [[]|e]; cbn [bind]; [|reflexivity].
    destruct (qr_stage img) as [v|flag qr].
    + split; [now left|]. split; [reflexivity|eexists; reflexivity].
    + cbv zeta. rewrite Hs. destruct (load_model disk s) as [n|] eqn:El.
      * destruct (text_boxes img) as [boxes|e]; cbn [bind]; [|reflexivity].
        destruct (decision img boxes flag qr) as [v|e]; cbn [bind];
          [|reflexivity].
        split; [now right|].
        split; [now rewrite <- El, load_model_idempotent|].
        eexists; reflexivity.
      * split; [now right|].
        split; [now rewrite <- El, load_model_idempotent|].
        eexists; reflexivity.
Qed.

Lemma collect_flat_map (results : list (option Candidate))
    (candidates : list Candidate) :
  collect results candidates
  = candidates
    ++ flat_map (fun r => match r with Some c => [c] | None => [] end) results.
Proof.
  revert candidates. induction results as [|[c|] rest IH]; intros acc; simpl.
  - now rewrite app_nil_r.
  - rewrite IH, <- app_assoc. reflexivity.
  - apply IH.
Qed.

Lemma collect_fetched (world : World) (urls : list string) :
  collect (map (fun url => returned (download_single_image world url)) urls) []
  = fetched world urls.
Proof.
  rewrite collect_flat_map. simpl. unfold fetched.
  induction urls as [|u urls IH]; simpl; [reflexivity|now rewrite IH].
Qed.

(** When the filtering loop returns, it has kept, in order, the
    candidates that pass, and set aside, in order, the others when asked
    to. *)
Lemma filter_loop_filter (disk : ModelArtifact) (save_discarded : bool)
    (_net : option dnn_Net) (candidates : list Candidate) :
  forall (acc f : Filtered) (s s' : option dnn_Net),
    load_model disk s = load_model disk _net ->
    filter_loop disk save_discarded candidates acc s = Ok (f, s') ->
    final_images f
    = final_images acc ++ map image_of (filter (passes disk _net) candidates)
    /\ discarded_images f
       = discarded_images acc
         ++ (if save_discarded
             then map image_of
                    (filter (fun c => negb (passes disk _net c)) candidates)
             else [])
    /\ (s' = s \/ s' = load_model disk _net).
Proof.
  induction candidates as [|[[img sz] url] rest IH]; intros acc f s s' Hs.
  - cbn [filter_loop]. intros H; injection H as <- <-.
    cbn [filter map]. rewrite !app_nil_r. destruct save_discarded;
      rewrite ?app_nil_r; (split; [reflexivity|]); (split; [reflexivity|]);
      now left.
  - cbn [filter_loop].
    pose proof (is_valid_exam_paper_state disk s _net img (eq_sym Hs)) as Hst.
    destruct (is_valid_exam_paper disk s img) as [[[keep reason] s1]|e];
      cbn [bind]; [|discriminate].
    destruct Hst as (Halt & Hl & s0 & E0).
    assert (Hs1 : load_model disk s1 = load_model disk _net)
      by now rewrite Hl.
    assert (Halt' : s1 = s \/ s1 = load_model disk _net)
      by (rewrite <- Hs; exact Halt).
    assert (Hp : passes disk _net (img, sz, url) = keep).
    { unfold passes. cbn [fst]. now rewrite E0. }
    assert (Hnet : forall s'', s'' = s1 \/ s'' = load_model disk _net ->
                   s'' = s \/ s'' = load_model disk _net).
    { intros s'' [->|H]; [exact Halt'|now right]. }
    cbn [filter]. rewrite Hp.
    destruct keep; cbn [negb]; intros E.
    + destruct (IH _ f s1 s' Hs1 E) as (Hf & Hd & Hn).
      rewrite Hf, Hd. cbn [final_images discarded_images map].
      rewrite <- app_assoc. split; [reflexivity|]. split; [reflexivity|].
      exact (Hnet s' Hn).
    + destruct (IH _ f s1 s' Hs1 E) as (Hf & Hd & Hn).
      rewrite Hf, Hd.
      destruct save_discarded; cbn [final_images discarded_images map];
        rewrite <- ?app_assoc; (split; [reflexivity|]);
        (split; [reflexivity|]); exact (Hnet s' Hn).
Qed.

(** The filtering loop returns when the classifier does on every
    candidate. *)
Lemma filter_loop_returns (disk : ModelArtifact) (save_discarded : bool)
    (candidates : list Candidate) :
  (forall c, In c candidates ->
     forall s, exists v s', is_valid_exam_paper disk s (image_of c) = Ok (v, s')) ->
  forall (acc : Filtered) (s : option dnn_Net),
    exists f s', filter_loop disk save_discarded candidates acc s = Ok (f, s').
Proof.
  induction candidates as [|[[img sz] url] rest IH]; intros Hall acc s.
  - eexists _, _. reflexivity.
  - cbn [filter_loop].
    destruct (Hall (img, sz, url) (or_introl eq_refl) s)
      as ([keep reason] & s1 & E).
    unfold image_of in E. cbn [fst] in E. rewrite E. cbn [bind].
    destruct keep; cbn [negb]; apply IH; intros c Hc; apply Hall; now right.
Qed.

Lemma save_each_returns (world : World) (imgs : list Image) :
  (forall img, In img imgs -> Image_save world img = Ok tt) ->
  save_each world imgs = Ok tt.
Proof.
  induction imgs as [|img imgs IH]; intros H; [reflexivity|].
  cbn [save_each]. rewrite (H img (or_introl eq_refl)). cbn [bind].
  apply IH. intros i Hi. apply H. now right.
Qed.

(** The filtering loop raises as soon as the classifier does: a
    candidate on which the classifier raises from every state ends the
    loop, at that candidate or before it. *)
Lemma filter_loop_raises (disk : ModelArtifact) (save_discarded : bool)
    (c : Candidate) (candidates : list Candidate) :
  In c candidates ->
  (forall s, exists e, is_valid_exam_paper disk s (image_of c) = Raise e) ->
  forall (acc : Filtered) (s : option dnn_Net),
    exists e, filter_loop disk save_discarded candidates acc s = Raise e.
Proof.
  intros Hin Hc. induction candidates as [|[[img sz] url] rest IH];
    [contradiction|].
  intros acc s. cbn [filter_loop].
  destruct (is_valid_exam_paper disk s img) as [[[keep reason] s1]|e] eqn:E;
    cbn [bind]; [|eexists; reflexivity].
  destruct Hin as [Heq|Hin].
  - subst c. destruct (Hc s) as [e He]. unfold image_of in He.
    cbn [fst] in He.
    rewrite He in E. discriminate.
  - destruct keep; cbn [negb]; apply (IH Hin).
Qed.

(** What [download_images] returns, when it returns. *)
Lemma download_images_filter (world : World) (disk : ModelArtifact)
    (_net : option dnn_Net) (urls : list string)
    (no_filter save_discarded : bool) (b : Batch) :
  download_images world disk _net urls no_filter save_discarded = Ok b ->
  images b
  = map image_of
      (filter (fun c => no_filter || passes disk _net c)
              (fetched world urls)).
Proof.
  unfold download_images. rewrite collect_fetched.
  destruct (fetched world urls) as [|c cs] eqn:E.
  - intros H; injection H as <-. reflexivity.
  - destruct no_filter.
    + intros H; injection H as <-. cbn [images orb].
      rewrite forallb_filter_id; [reflexivity|].
      apply forallb_forall. reflexivity.
    + destruct (filter_loop disk save_discarded (c :: cs) _ _net)
        as [[f s']|e] eqn:Ef; cbn [bind]; [|discriminate].
      destruct (write_discarded world save_discarded (discarded_images f));
        cbn [bind]; [|discriminate].
      intros H; injection H as <-. cbn [images orb].
      destruct (filter_loop_filter disk save_discarded _net (c :: cs)
                  _ f _net s' eq_refl Ef) as (Hf & _).
      exact Hf.
Qed.

(** A candidate carries the URL it was fetched from. *)
Lemma download_single_image_url (world : World) (url : string) (c : Candidate) :
  returned (download_single_image world url) = Some c -> snd c = url.
Proof.
  unfold download_single_image, download_try.
  destruct (stream_GET world url) as [resp|]; [|discriminate].
  destruct (status resp); [|discriminate].
  destruct (_ || _); [discriminate|].
  destruct (length_exceeds (content_length resp)) as [[|]|]; try discriminate.
  destruct (read_body (body resp) [] 0) as [[data|] n]; [|discriminate].
  destruct (body_breaks resp); [discriminate|].
  simpl. unfold decode_and_gate.
  destruct (Image_open world data) as [img| |]; try discriminate.
  match goal with
  | |- context [if ?b then convert_RGB img else img] =>
      destruct (size (if b then convert_RGB img else img)) as [w h]
  end.
  destruct (_ || _); [discriminate|].
  intros H; injection H as <-. reflexivity.
Qed.

Lemma fetched_urls (world : World) (urls : list string) :
  map snd (fetched world urls)
  = filter (fun url =>
              match returned (download_single_image world url) with
              | Some _ => true
              | None => false
              end) urls.
Proof.
  unfold fetched. induction urls as [|u urls IH]; simpl; [reflexivity|].
  destruct (returned (download_single_image world u)) as [c|] eqn:E; simpl.
  - rewrite (download_single_image_url world u c E). now rewrite IH.
  - exact IH.
Qed.

Lemma fetched_dimensions (world : World) (urls : list string) (c : Candidate) :
  In c (fetched world urls) ->
  MIN_IMAGE_DIMENSION <= fst (size (image_of c))
  /\ MIN_IMAGE_DIMENSION <= snd (size (image_of c)).
Proof.
  unfold fetched. intros H. apply in_flat_map in H as (u & _ & H).
  destruct (returned (download_single_image world u)) as [c'|] eqn:E;
    [|contradiction].
  destruct H as [<-|[]].
  exact (download_single_image_dimensions world u c' E).
Qed.

End BatchFacts.

(** C6. The dimension gate sits in the fetch: a candidate that
    [download_single_image] returns has both sides at least 300, and so has
    every image [download_images] returns, with the smart filter and with
    [no_filter] alike. An image with a side below 300 is in neither. *)
Theorem undersized_images_never_returned
    (world : ArticleProcessor.World) (disk : SmartFilter.ModelArtifact)
    (_net : option SmartFilter.dnn_Net) (urls : list string)
    (no_filter save_discarded : bool) (b : ArticleProcessor.Batch)
    (img : Image) :
  ArticleProcessor.download_images world disk _net urls no_filter save_discarded
    = Ok b ->
  In img (ArticleProcessor.images b) ->
  MIN_IMAGE_DIMENSION <= fst (size img)
  /\ MIN_IMAGE_DIMENSION <= snd (size img).
Proof.
  intros Hb Hin.
  rewrite (download_images_filter world disk _net urls no_filter save_discarded
             b Hb) in Hin.
  apply in_map_iff in Hin as (c & <- & Hc).
  apply filter_In in Hc as [Hc _].
  exact (fetched_dimensions world urls c Hc).
Qed.

Lemma undersized_images_never_returned_witness :
  let urls := ["https://mmbiz.qpic.cn/icon"; "https://mmbiz.qpic.cn/page"] in
  let page := Sample.page 1240 1754 40 9000 in
  (ArticleProcessor.download_images Sample.article
     SmartFilter.artifact_missing None urls true false
   = Ok {| ArticleProcessor.images := [page];
           ArticleProcessor.saved_discarded := [];
           ArticleProcessor.net_after := None |}
   /\ MIN_IMAGE_DIMENSION <= fst (size page)
      /\ MIN_IMAGE_DIMENSION <= snd (size page))
  /\ (ArticleProcessor.download_images Sample.article
        (SmartFilter.artifact_ok SmartFilter.east_net) None urls false false
      = Ok {| ArticleProcessor.images := [page];
              ArticleProcessor.saved_discarded := [];
              ArticleProcessor.net_after := Some SmartFilter.east_net |}
      /\ MIN_IMAGE_DIMENSION <= fst (size page)
         /\ MIN_IMAGE_DIMENSION <= snd (size page)).
Proof.
  intros urls page. split.
  - split; [reflexivity|].
    exact (undersized_images_never_returned Sample.article
             SmartFilter.artifact_missing None urls true false _ page
             eq_refl (or_introl eq_refl)).
  - split; [reflexivity|].
    exact (undersized_images_never_returned Sample.article
             (SmartFilter.artifact_ok SmartFilter.east_net) None urls false false
             _ page eq_refl (or_introl eq_refl)).
Defined.

(** C7. A fetch that fails does not abort the batch, but a candidate on
    which the classifier raises does: line 119 converts the image outside
    every [try], and the loop of lines 489-499 has none either. With the
    smart filter on, one fetched candidate whose conversion raises (a
    greyscale scan, which the fetch leaves in mode [L]) makes
    [download_images] raise, and no image of the batch is returned. *)
Theorem unconvertible_candidate_aborts_batch
    (world : ArticleProcessor.World) (disk : SmartFilter.ModelArtifact)
    (_net : option SmartFilter.dnn_Net) (urls : list string)
    (save_discarded : bool) (c : ArticleProcessor.Candidate) (e : exn) :
  In c (ArticleProcessor.fetched world urls) ->
  bgr (ArticleProcessor.image_of c) = Raise e ->
  exists e',
    ArticleProcessor.download_images world disk _net urls false save_discarded
    = Raise e'.
Proof.
  intros Hin Hbgr.
  unfold ArticleProcessor.download_images. rewrite collect_fetched.
  destruct (ArticleProcessor.fetched world urls) as [|c0 cs] eqn:E;
    [contradiction|].
  destruct (filter_loop_raises disk save_discarded c (c0 :: cs) Hin) with
    (acc := {| ArticleProcessor.final_images := [];
               ArticleProcessor.discarded_images := [] |}) (s := _net)
    as [e' He'].
  - intros s. exists e.
    assert (Hc : In c (ArticleProcessor.fetched world urls))
      by (rewrite E; exact Hin).
    destruct (fetched_dimensions world urls c Hc) as [Hw Hh].
    unfold SmartFilter.is_valid_exam_paper.
    destruct (size (ArticleProcessor.image_of c)) as [w h].
    rewrite (gate_passed w h Hw Hh), Hbgr. reflexivity.
  - exists e'. rewrite He'. reflexivity.
Qed.

Lemma unconvertible_candidate_aborts_batch_witness :
  let page := "https://mmbiz.qpic.cn/page" in
  let scan := "https://mmbiz.qpic.cn/scan" in
  let disk := SmartFilter.artifact_ok SmartFilter.east_net in
  ArticleProcessor.download_images Server.scans disk None [page] false false
  = Ok {| ArticleProcessor.images := [Sample.page 1240 1754 40 9000];
          ArticleProcessor.saved_discarded := [];
          ArticleProcessor.net_after := Some SmartFilter.east_net |}
  /\ ArticleProcessor.download_images Server.scans disk None [page; scan]
       false false
     = Raise LibraryError
  /\ exists e',
       ArticleProcessor.download_images Server.scans disk None [page; scan]
         false false
       = Raise e'.
Proof.
  intros page scan disk. split; [reflexivity|]. split; [reflexivity|].
  apply (unconvertible_candidate_aborts_batch Server.scans disk None
           [page; scan] false (Variant.grey_page 1240 1754, 1, scan)
           LibraryError).
  - right. left. reflexivity.
  - reflexivity.
Defined.

Example download_images_article :
  let urls := ["https://mmbiz.qpic.cn/poster"; "https://mmbiz.qpic.cn/icon";
               "https://mmbiz.qpic.cn/gone"; "https://mmbiz.qpic.cn/page"] in
  option_map ArticleProcessor.images
    (match ArticleProcessor.download_images Sample.article
             (SmartFilter.artifact_ok SmartFilter.east_net) None urls false true
     with Ok b => Some b | Raise _ => None end)
  = Some [Sample.page 1240 1754 40 9000]
  /\ option_map ArticleProcessor.images
       (match ArticleProcessor.download_images Sample.article
                (SmartFilter.artifact_ok SmartFilter.east_net) None urls true true
        with Ok b => Some b | Raise _ => None end)
     = Some [Sample.page_with_qr 600 800 (240000 # 1) 2 100;
             Sample.page 1240 1754 40 9000].
Proof. split; reflexivity. Qed.

(** ** The admission gate *)

Section GateFacts.

Import ArticleProcessor Gate.
Local Open Scope list_scope.

Lemma fetching_count_update (ts : list Task) (i : nat) (old new : Task) :
  nth_error ts i = Some old ->
  fetching_count (update i new ts)
  = fetching_count ts - Z.b2z (is_fetching old) + Z.b2z (is_fetching new).
Proof.
  unfold fetching_count. revert i.
  induction ts as [|t ts IH]; intros [|i] H; simpl in H; try discriminate.
  - injection H as ->. simpl.
    destruct (is_fetching old), (is_fetching new); simpl List.length; simpl Z.b2z; lia.
  - simpl. specialize (IH i H).
    destruct (is_fetching t); simpl List.length; lia.
Qed.

Lemma start_balanced (urls : list string) : balanced (start urls).
Proof.
  unfold balanced, active, fetching_count, start. cbn [value tasks].
  assert (E : filter is_fetching (map (fun _ : string => waiting) urls) = []).
  { induction urls as [|u urls IH]; simpl; [reflexivity|exact IH]. }
  rewrite E. unfold MAX_CONCURRENT_DOWNLOADS. simpl. lia.
Qed.

Lemma step_balanced (world : World) (urls : list string) (e : Event)
    (l l' : Loop) :
  balanced l -> step world urls e l = Some l' -> balanced l'.
Proof.
  unfold balanced, active. intros [Hsum Hpos].
  destruct e as [i|i|i]; unfold step.
  - destruct (nth_error (tasks l) i) as [[]|] eqn:E; try discriminate.
    destruct (Z.gtb_spec (value l) 0) as [Hfree|_]; [|discriminate].
    intros H; injection H as <-. cbn [value tasks].
    rewrite (fetching_count_update _ _ _ _ E). simpl Z.b2z. lia.
  - destruct (nth_error (tasks l) i) as [[]|] eqn:E; try discriminate.
    destruct (nth_error urls i); [|discriminate].
    intros H; injection H as <-. cbn [value tasks].
    rewrite (fetching_count_update _ _ _ _ E). simpl Z.b2z. lia.
  - destruct (nth_error (tasks l) i) as [[]|] eqn:E; try discriminate;
      intros H; injection H as <-; cbn [value tasks];
      rewrite (fetching_count_update _ _ _ _ E); simpl Z.b2z; lia.
Qed.

Lemma run_balanced (world : World) (urls : list string)
    (schedule : list Event) :
  forall l l', balanced l -> run world urls schedule l = Some l' -> balanced l'.
Proof.
  induction schedule as [|e rest IH]; intros l l' Hb; simpl.
  - intros H; injection H as <-. exact Hb.
  - destruct (step world urls e l) as [l1|] eqn:E; [|discriminate].
    apply IH. exact (step_balanced world urls e l l1 Hb E).
Qed.

End GateFacts.

(** C8. Whatever the event loop does with the tasks of one
    [download_images] call, the fetches in flight never exceed
    [MAX_CONCURRENT_DOWNLOADS]: a task is in its fetch only between taking
    a slot and giving it back, every way out of the fetch (a result, [None],
    cancellation) gives the slot back, and when all ten are taken no
    further task is let in. *)
Theorem at_most_ten_fetches_active
    (world : ArticleProcessor.World) (urls : list string)
    (schedule : list Gate.Event) (l : Gate.Loop) :
  Gate.run world urls schedule (Gate.start urls) = Some l ->
  0 <= Gate.active l <= MAX_CONCURRENT_DOWNLOADS
  /\ Gate.value l = MAX_CONCURRENT_DOWNLOADS - Gate.active l
  /\ (Gate.active l = MAX_CONCURRENT_DOWNLOADS ->
      forall i, Gate.step world urls (Gate.Acquire i) l = None).
Proof.
  intros Hrun.
  destruct (run_balanced world urls schedule _ _ (start_balanced urls) Hrun)
    as [Hsum Hpos].
  assert (Hact : 0 <= Gate.active l)
    by (unfold Gate.active, Gate.fetching_count; lia).
  split; [lia|]. split; [lia|].
  intros Hfull i. unfold Gate.step.
  destruct (nth_error (Gate.tasks l) i) as [[]|]; try reflexivity.
  destruct (Z.gtb_spec (Gate.value l) 0); [lia|reflexivity].
Qed.

Lemma at_most_ten_fetches_active_witness :
  let urls := map (fun n => "https://mmbiz.qpic.cn/" ++ n)
                ["page"; "icon"; "poster"; "a"; "b"; "c"; "d"; "e"; "f"; "g";
                 "h"; "i"] in
  let schedule :=
    [Gate.Acquire 0; Gate.Acquire 1; Gate.Acquire 2; Gate.Acquire 3;
     Gate.Acquire 4; Gate.Acquire 5; Gate.Acquire 6; Gate.Acquire 7;
     Gate.Acquire 8; Gate.Acquire 9; Gate.Complete 1; Gate.Cancel 11;
     Gate.Acquire 10] in
  match Gate.run Sample.article urls schedule (Gate.start urls) with
  | Some l =>
      Gate.active l = 10
      /\ (0 <= Gate.active l <= MAX_CONCURRENT_DOWNLOADS
          /\ Gate.value l = MAX_CONCURRENT_DOWNLOADS - Gate.active l
          /\ (Gate.active l = MAX_CONCURRENT_DOWNLOADS ->
              forall i, Gate.step Sample.article urls (Gate.Acquire i) l = None))
  | None => False
  end.
Proof.
  intros urls schedule.
  destruct (Gate.run Sample.article urls schedule (Gate.start urls))
    as [l|] eqn:E.
  - split.
    + vm_compute in E. injection E as <-. reflexivity.
    + exact (at_most_ten_fetches_active Sample.article urls schedule l E).
  - vm_compute in E. discriminate E.
Defined.

(** ** Extracting the image URLs *)

Section ExtractFacts.

Import Extract.
Local Open Scope list_scope.

Lemma seen_has_In (seen : list string) (u : string) :
  seen_has seen u = true <-> In u seen.
Proof.
  unfold seen_has. rewrite existsb_exists. split.
  - intros (x & Hx & E). apply String.eqb_eq in E. now subst.
  - intros H. exists u. split; [assumption|apply String.eqb_refl].
Qed.

(** One step of the loop, in terms of [tag_url]. *)
Lemma extract_loop_step (img : ImgTag) (rest : list ImgTag)
    (urls seen : list string) :
  extract_loop (img :: rest) urls seen
  = match tag_url img with
    | Some u =>
        if seen_has seen u then extract_loop rest urls seen
        else extract_loop rest (urls ++ [u]) (u :: seen)
    | None => extract_loop rest urls seen
    end.
Proof.
  cbn [extract_loop]. unfold tag_url.
  destruct (py_or (py_or (data_src img) (data_original img)) (src img))
    as [[|c s]|]; try reflexivity.
  destruct (strip (String c s)); reflexivity.
Qed.

(** The invariant of the loop: [urls] has no repetition and [seen] holds
    exactly its elements. *)
Lemma extract_loop_spec (imgs : list ImgTag) :
  forall urls seen,
    NoDup urls -> (forall u, In u seen <-> In u urls) ->
    NoDup (extract_loop imgs urls seen)
    /\ (forall u, In u (extract_loop imgs urls seen)
                  <-> In u urls \/ exists img, In img imgs /\ tag_url img = Some u)
    /\ exists more, extract_loop imgs urls seen = urls ++ more.
Proof.
  induction imgs as [|img rest IH]; intros urls seen Hnd Hseen.
  - simpl. split; [assumption|]. split.
    + intros u. split; [now left|]. intros [H|(img & [] & _)]. exact H.
    + exists []. now rewrite app_nil_r.
  - rewrite extract_loop_step.
    destruct (tag_url img) as [u0|] eqn:Et.
    + destruct (seen_has seen u0) eqn:Es.
      * destruct (IH urls seen Hnd Hseen) as (N & M & P).
        split; [exact N|]. split; [|exact P].
        intros u. rewrite M. split.
        -- intros [H|(i & Hi & E)]; [now left|].
           right. exists i. split; [now right|exact E].
        -- intros [H|(i & [<-|Hi] & E)]; [now left| |].
           ++ left. rewrite Et in E. injection E as <-.
              apply Hseen. now apply seen_has_In.
           ++ right. now exists i.
      * assert (Hnot : ~ In u0 urls).
        { intros H. apply Hseen in H. apply seen_has_In in H. congruence. }
        destruct (IH (urls ++ [u0]) (u0 :: seen)) as (N & M & P).
        -- apply NoDup_app; [assumption|repeat constructor; intros []|].
           intros x Hx [<-|[]]. contradiction.
        -- intros u. simpl. rewrite in_app_iff, Hseen. simpl. tauto.
        -- split; [exact N|]. split.
           ++ intros u. rewrite M, in_app_iff. simpl. split.
              ** intros [[H|[<-|[]]]|(i & Hi & E)].
                 --- now left.
                 --- right. exists img. split; [now left|exact Et].
                 --- right. exists i. split; [now right|exact E].
              ** intros [H|(i & [<-|Hi] & E)].
                 --- left. now left.
                 --- left. right. left. congruence.
                 --- right. now exists i.
           ++ destruct P as [more ->]. exists (u0 :: more).
              now rewrite <- app_assoc.
    + destruct (IH urls seen Hnd Hseen) as (N & M & P).
      split; [exact N|]. split; [|exact P].
      intros u. rewrite M. split.
      * intros [H|(i & Hi & E)]; [now left|].
        right. exists i. split; [now right|exact E].
      * intros [H|(i & [<-|Hi] & E)]; [now left|congruence|].
        right. now exists i.
Qed.

(** A normalised URL is a fixed point of the normalisation. *)
Lemma normalize_fixed (url : string) :
  ArticleUrl.normalize_image_url (ArticleUrl.normalize_image_url url)
  = ArticleUrl.normalize_image_url url.
Proof.
  destruct (normalize_cases url) as [E|(p & E & Hp & Hn)]; rewrite E.
  - exact E.
  - exact (normalize_numeric p "0" "" Hp Hn eq_refl (or_introl eq_refl)).
Qed.

Lemma normalize_nonempty (url : string) :
  url <> "" -> ArticleUrl.normalize_image_url url <> "".
Proof.
  intros H. destruct (normalize_cases url) as [E|(p & E & _)]; rewrite E.
  - exact H.
  - destruct p; discriminate.
Qed.

Lemma tag_url_canonical (img : ImgTag) (u : string) :
  tag_url img = Some u ->
  u <> "" /\ ArticleUrl.normalize_image_url u = u.
Proof.
  unfold tag_url.
  destruct (py_or (py_or (data_src img) (data_original img)) (src img))
    as [[|c s]|]; try discriminate.
  destruct (strip (String c s)) as [|c' s'] eqn:E; [discriminate|].
  intros H; injection H as <-. split.
  - apply normalize_nonempty. discriminate.
  - apply normalize_fixed.
Qed.

End ExtractFacts.

(** X1. The list [extract_image_urls] returns has no repetition, and it
    holds exactly the URLs the tags contribute: a URL is in it if and only
    if some tag has, as the first non-empty one of [data-src],
    [data-original] and [src], a text that is not all whitespace and whose
    stripped, normalised form is that URL. *)
Theorem extract_image_urls_unique_and_complete (imgs : list Extract.ImgTag) :
  NoDup (Extract.extract_image_urls imgs)
  /\ forall u, In u (Extract.extract_image_urls imgs)
               <-> exists img, In img imgs /\ Extract.tag_url img = Some u.
Proof.
  destruct (extract_loop_spec imgs [] []) as (N & M & _).
  - constructor.
  - intros u. tauto.
  - split; [exact N|]. intros u. rewrite M. simpl. tauto.
Qed.

(** X2. Every URL [extract_image_urls] returns is non-empty and canonical:
    [normalize_image_url] maps it to itself. *)
Theorem extract_image_urls_canonical (imgs : list Extract.ImgTag) (u : string) :
  In u (Extract.extract_image_urls imgs) ->
  u <> "" /\ ArticleUrl.normalize_image_url u = u.
Proof.
  intros H.
  destruct (extract_loop_spec imgs [] []) as (_ & M & _).
  - constructor.
  - intros x. tauto.
  - apply M in H as [[]|(img & _ & E)].
    exact (tag_url_canonical img u E).
Qed.

Lemma extract_image_urls_canonical_witness :
  "https://mmbiz.qpic.cn/mmbiz_jpg/Xk3/0" <> ""
  /\ ArticleUrl.normalize_image_url "https://mmbiz.qpic.cn/mmbiz_jpg/Xk3/0"
     = "https://mmbiz.qpic.cn/mmbiz_jpg/Xk3/0".
Proof.
  exact (extract_image_urls_canonical
           [Extract.lazy_img "  https://mmbiz.qpic.cn/mmbiz_jpg/Xk3/640?wx_fmt=jpeg "]
           "https://mmbiz.qpic.cn/mmbiz_jpg/Xk3/0" (or_introl eq_refl)).
Defined.

(** ** More on the classifier *)

Section MoreFilterFacts.

Import SmartFilter.

Lemma Qgtb_spec (x y : Q) : reflect (y < x)%Q (Qgtb x y).
Proof.
  destruct (Qlt_le_dec y x) as [H|H].
  - rewrite (Qgtb_true x y H). now constructor.
  - rewrite (Qgtb_false x y H). constructor. now apply Qle_not_lt.
Qed.

Lemma Qltb_spec (x y : Q) : reflect (x < y)%Q (Qltb x y).
Proof. exact (Qgtb_spec y x). Qed.

(** The decision logic after the gate, with its two quotients named.
    The edge detector is asked only below 4 boxes and without a flag. *)
Lemma decision_after_gate (img : Image) (n k : Z) (flag : bool)
    (qr : QrReason) :
  MIN_IMAGE_DIMENSION <= fst (size img) ->
  MIN_IMAGE_DIMENSION <= snd (size img) ->
  (flag = false -> n < 4 -> edge_pixels img = Ok k) ->
  let a := (inject_Z (Z.max (fst (size img)) (snd (size img)))
            / inject_Z (Z.min (fst (size img)) (snd (size img))))%Q in
  let e := (inject_Z k / inject_Z (fst (size img) * snd (size img)))%Q in
  decision img n flag qr =
  Ok (if n >=? 8 then (true, many_text_regions n)
      else if flag then (false, qr_and_little_text qr n)
      else if (4 <=? n) && (n <? 8) then
        if Qltb a (13 # 10) then (false, card_like n a)
        else (true, moderate_text n)
      else if (n >? 0) && Qgtb e (1 # 100)
      then (true, little_text_with_lines n e)
      else if negb (n >? 0) && Qgtb e (1 # 20)
      then (true, no_text_rich_lines e)
      else if Qgtb a 4 then (false, odd_aspect_ratio)
      else (false, sparse n e)).
Proof.
  unfold decision. destruct (size img) as [w h]; simpl fst; simpl snd.
  intros Hw Hh Hk.
  rewrite (aspect_ratio_of_gate w h Hw Hh). cbv zeta. cbn [bind].
  destruct (Z.geb_spec n 8) as [Hge|Hlt]; [reflexivity|].
  destruct flag; [reflexivity|].
  destruct (Z.leb_spec 4 n) as [H4|H4]; cbn [andb].
  - destruct (Z.ltb_spec n 8) as [H8|H8]; [|lia].
    destruct (Qltb _ _); reflexivity.
  - rewrite (Hk eq_refl H4). cbn [bind].
    rewrite (edge_density_gate w h _ Hw Hh). cbn [bind].
    repeat match goal with
           | |- context [if ?b then _ else _] => destruct b
           end; reflexivity.
Qed.

End MoreFilterFacts.

(** The classifier returns when the three library calls outside the QR
    block do, and what it leaves in [_net]. *)
Lemma is_valid_exam_paper_net
    (disk : SmartFilter.ModelArtifact) (_net : option SmartFilter.dnn_Net)
    (img : Image) (boxes k : Z) :
  bgr img = Ok tt ->
  text_boxes img = Ok boxes ->
  edge_pixels img = Ok k ->
  exists v _net',
    SmartFilter.is_valid_exam_paper disk _net img = Ok (v, _net')
    /\ (_net' = _net \/ _net' = SmartFilter.load_model disk _net)
    /\ (forall n, _net = Some n -> _net' = Some n).
Proof.
  intros Hbgr Hboxes Hk.
  unfold SmartFilter.is_valid_exam_paper.
  destruct (size img) as [w h] eqn:Esize.
  destruct ((w <? MIN_IMAGE_DIMENSION) || (h <? MIN_IMAGE_DIMENSION)) eqn:Egate.
  - eexists _, _. split; [reflexivity|]. split; [now left|]. intros n H; exact H.
  - rewrite Hbgr. cbn [bind].
    destruct (SmartFilter.qr_stage img) as [v|flag qr].
    + eexists _, _. split; [reflexivity|]. split; [now left|].
      intros n H; exact H.
    + apply orb_false_elim in Egate as [Hw Hh]. apply Z.ltb_ge in Hw, Hh.
      destruct (decision_returns img boxes k flag qr) as [v Hv];
        [now rewrite Esize|now rewrite Esize|exact Hk|].
      cbv zeta.
      destruct (SmartFilter.load_model disk _net) as [n0|] eqn:El.
      * exists v, (Some n0). rewrite Hboxes. cbn [bind].
        split; [now rewrite Hv|]. split; [now right|].
        intros n ->. symmetry. exact El.
      * eexists _, _. split; [reflexivity|]. split; [now right|].
        intros n ->. discriminate El.
Qed.

(** X3. [is_valid_exam_paper] returns a verdict whenever the three
    library calls outside the QR block return: the conversion of line
    119, the text detector and the edge detector. What the QR calls
    return or raise, and what is on disk, changes nothing to that. The
    value of [SmartFilter._net] it leaves is the one it found or the one
    [load_model] makes of it, and a network that was loaded stays. *)
Theorem is_valid_exam_paper_returns_when_detectors_do
    (disk : SmartFilter.ModelArtifact) (_net : option SmartFilter.dnn_Net)
    (img : Image) (boxes k : Z) :
  bgr img = Ok tt ->
  text_boxes img = Ok boxes ->
  edge_pixels img = Ok k ->
  exists v _net',
    SmartFilter.is_valid_exam_paper disk _net img = Ok (v, _net')
    /\ (_net' = _net \/ _net' = SmartFilter.load_model disk _net)
    /\ (forall n, _net = Some n -> _net' = Some n).
Proof. exact (is_valid_exam_paper_net disk _net img boxes k). Qed.

Lemma is_valid_exam_paper_returns_when_detectors_do_witness :
  exists v _net',
    SmartFilter.is_valid_exam_paper
      (SmartFilter.artifact_ok SmartFilter.east_net) None
      (Variant.qr_crashes 600 800 5 0) = Ok (v, _net')
    /\ (_net' = None
        \/ _net' = SmartFilter.load_model
                     (SmartFilter.artifact_ok SmartFilter.east_net) None)
    /\ (forall n, None = Some n -> _net' = Some n).
Proof.
  exact (is_valid_exam_paper_returns_when_detectors_do
           (SmartFilter.artifact_ok SmartFilter.east_net) None
           (Variant.qr_crashes 600 800 5 0) 5 0 eq_refl eq_refl eq_refl).
Defined.

(** X4. A failure inside the QR block counts as "no QR code": when one of
    the QR calls raises, the verdict is the one of the same image with no
    QR pattern on it. *)
Theorem qr_failure_counts_as_no_qr
    (disk : SmartFilter.ModelArtifact) (_net : option SmartFilter.dnn_Net)
    (img : Image) (e : exn) :
  SmartFilter.qr_try img = Raise e ->
  SmartFilter.is_valid_exam_paper disk _net img
  = SmartFilter.is_valid_exam_paper disk _net (Variant.without_qr img).
Proof.
  intros H.
  assert (E1 : SmartFilter.qr_stage img
               = SmartFilter.qr_continue false SmartFilter.qr_none).
  { unfold SmartFilter.qr_stage. now rewrite H. }
  assert (E2 : SmartFilter.qr_stage (Variant.without_qr img)
               = SmartFilter.qr_continue false SmartFilter.qr_none).
  { unfold SmartFilter.qr_stage, SmartFilter.qr_try.
    cbn [size Variant.without_qr]. destruct (size img); reflexivity. }
  assert (E3 : forall boxes flag qr,
             SmartFilter.decision (Variant.without_qr img) boxes flag qr
             = SmartFilter.decision img boxes flag qr) by reflexivity.
  unfold SmartFilter.is_valid_exam_paper. rewrite E1, E2.
  cbn [size bgr text_boxes Variant.without_qr].
  destruct (size img) as [w h]. destruct (_ || _); [reflexivity|].
  destruct (bgr img); cbn [bind]; [|reflexivity].
  destruct (SmartFilter.load_model disk _net); [|reflexivity].
  destruct (text_boxes img); cbn [bind]; [|reflexivity].
  now rewrite E3.
Qed.

Lemma qr_failure_counts_as_no_qr_witness :
  SmartFilter.is_valid_exam_paper
    (SmartFilter.artifact_ok SmartFilter.east_net) None
    (Variant.qr_crashes 600 800 5 0)
  = SmartFilter.is_valid_exam_paper
      (SmartFilter.artifact_ok SmartFilter.east_net) None
      (Variant.without_qr (Variant.qr_crashes 600 800 5 0)).
Proof.
  exact (qr_failure_counts_as_no_qr
           (SmartFilter.artifact_ok SmartFilter.east_net) None
           (Variant.qr_crashes 600 800 5 0) LibraryError eq_refl).
Defined.

(** X5. The QR block discards on the spot only for a decoded code: when
    it returns, one of the three decoding passes gave a non-empty payload
    with a quadrilateral covering more than 40% of the image. A pattern
    that is detected but not decoded never ends the function there. *)
Theorem qr_discard_needs_decoded_payload (img : Image) (v : SmartFilter.Verdict) :
  SmartFilter.qr_stage img = SmartFilter.qr_return v ->
  exists r pts ratio,
    (qr_gray img = Ok r \/ qr_inverted img = Ok r \/ qr_binary img = Ok r)
    /\ decoded_text r <> ""
    /\ points r = Some pts
    /\ float_div (contourArea pts) (fst (size img) * snd (size img)) = Ok ratio
    /\ (2 # 5 < ratio)%Q
    /\ v = (false, SmartFilter.huge_qr ratio).
Proof.
  unfold SmartFilter.qr_stage, SmartFilter.qr_try.
  destruct (size img) as [w h]; cbn [fst snd].
  destruct (qr_gray img) as [r1|] eqn:E1; cbn [bind try_except];
    [|discriminate].
  assert (Hr2 : forall r2,
             (if negb (SmartFilter.nonempty (decoded_text r1))
              then qr_inverted img else Ok r1) = Ok r2 ->
             qr_gray img = Ok r2 \/ qr_inverted img = Ok r2).
  { intros r2. destruct (negb _); [now right|].
    intros H; injection H as <-. now left. }
  destruct (if negb (SmartFilter.nonempty (decoded_text r1))
            then qr_inverted img else Ok r1) as [r2|];
    cbn [bind try_except]; [|discriminate].
  specialize (Hr2 r2 eq_refl).
  assert (Hr3 : forall r3,
             (if negb (SmartFilter.nonempty (decoded_text r2))
              then qr_binary img else Ok r2) = Ok r3 ->
             qr_gray img = Ok r3 \/ qr_inverted img = Ok r3
             \/ qr_binary img = Ok r3).
  { intros r3. destruct (negb _); [tauto|].
    intros H; injection H as <-. tauto. }
  destruct (if negb (SmartFilter.nonempty (decoded_text r2))
            then qr_binary img else Ok r2) as [r3|];
    cbn [bind try_except]; [|discriminate].
  specialize (Hr3 r3 eq_refl). rewrite E1 in Hr3.
  destruct (points r3) as [pts|] eqn:Ep,
           (SmartFilter.nonempty (decoded_text r3)) eqn:Et.
  - destruct (float_div (contourArea pts) (w * h)) as [ratio|] eqn:Ed;
      cbn [bind try_except]; [|discriminate].
    destruct (Qgtb_spec ratio (2 # 5)) as [Hgt|_].
    + intros H; injection H as <-. exists r3, pts, ratio.
      split; [exact Hr3|].
      split; [destruct (decoded_text r3); [discriminate Et|discriminate]|].
      repeat split; assumption.
    + destruct (Qgtb ratio (1 # 20)); discriminate.
  - destruct (qr_detect img) as [[[|] [pts'|]]|]; cbn [bind try_except];
      try discriminate.
    destruct (float_div (contourArea pts') (w * h)) as [ratio|];
      cbn [bind try_except]; [|discriminate].
    destruct (Qgtb ratio (1 # 5)); discriminate.
  - discriminate.
  - destruct (qr_detect img) as [[[|] [pts'|]]|]; cbn [bind try_except];
      try discriminate.
    destruct (float_div (contourArea pts') (w * h)) as [ratio|];
      cbn [bind try_except]; [|discriminate].
    destruct (Qgtb ratio (1 # 5)); discriminate.
Qed.

Lemma qr_discard_needs_decoded_payload_witness :
  exists r pts ratio,
    (Ok {| decoded_text := "https://mp.weixin.qq.com/s/x";
           points := Some {| contourArea := 240000 # 1 |} |} = Ok r
     \/ Sample.nothing_read = Ok r \/ Sample.nothing_read = Ok r)
    /\ decoded_text r <> ""
    /\ points r = Some pts
    /\ float_div (contourArea pts) (600 * 800) = Ok ratio
    /\ (2 # 5 < ratio)%Q
    /\ (false, SmartFilter.huge_qr (240000 # 480000))
       = (false, SmartFilter.huge_qr ratio).
Proof.
  exact (qr_discard_needs_decoded_payload
           (Sample.page_with_qr 600 800 (240000 # 1) 12 0)
           (false, SmartFilter.huge_qr (240000 # 480000)) eq_refl).
Defined.

(** X6. With the model loaded, for an image that passes the dimension
    gate, on which line 119 and the text detector return, and the edge
    detector too where it is asked (fewer than 4 boxes, no QR flag): the
    image is kept if and only if it has at least 8 text boxes, or carries
    no QR flag and has either 4 to 7 boxes with an aspect ratio of at
    least 1.3, or 1 to 3 boxes with an edge density above 0.01, or no box
    with an edge density above 0.05. The aspect-ratio test of the last
    rule ("more than 4") changes the reason only. *)
Theorem keep_decision_table
    (disk : SmartFilter.ModelArtifact) (_net : option SmartFilter.dnn_Net)
    (n0 : SmartFilter.dnn_Net) (img : Image) (flag : bool)
    (qr : SmartFilter.QrReason) (n k : Z) :
  SmartFilter.load_model disk _net = Some n0 ->
  MIN_IMAGE_DIMENSION <= fst (size img) ->
  MIN_IMAGE_DIMENSION <= snd (size img) ->
  bgr img = Ok tt ->
  SmartFilter.qr_stage img = SmartFilter.qr_continue flag qr ->
  text_boxes img = Ok n ->
  (flag = false -> n < 4 -> edge_pixels img = Ok k) ->
  let a := (inject_Z (Z.max (fst (size img)) (snd (size img)))
            / inject_Z (Z.min (fst (size img)) (snd (size img))))%Q in
  let e := (inject_Z k / inject_Z (fst (size img) * snd (size img)))%Q in
  exists keep reason,
    SmartFilter.is_valid_exam_paper disk _net img
    = Ok ((keep, reason), Some n0)
    /\ (keep = true <->
        8 <= n
        \/ (flag = false
            /\ ((4 <= n < 8 /\ (13 # 10 <= a)%Q)
                \/ (0 < n < 4 /\ (1 # 100 < e)%Q)
                \/ (n <= 0 /\ (1 # 20 < e)%Q)))).
Proof.
  intros Hload Hw Hh Hbgr Hqr Hn Hk a e.
  rewrite (is_valid_exam_paper_falls_through disk _net img flag qr
             Hw Hh Hbgr Hqr).
  rewrite Hload, Hn. cbn [bind].
  rewrite (decision_after_gate img n k flag qr Hw Hh Hk).
  fold a e. cbn [bind].
  destruct (Z.geb_spec n 8) as [H8|H8].
  { eexists _, _. split; [reflexivity|]. split; [intros _; left; lia|reflexivity]. }
  destruct flag.
  { eexists _, _. split; [reflexivity|]. split; [discriminate|].
    intros [H|[H _]]; [lia|discriminate]. }
  destruct (Z.leb_spec 4 n) as [H4|H4]; destruct (Z.ltb_spec n 8) as [H8'|H8'];
    try lia; cbn [andb].
  - destruct (Qltb_spec a (13 # 10)) as [Ha|Ha].
    + eexists _, _. split; [reflexivity|]. split; [discriminate|].
      intros [H|[_ [[_ H]|[[H _]|[H _]]]]]; try lia.
      exfalso. exact (Qlt_not_le _ _ Ha H).
    + apply Qnot_lt_le in Ha.
      eexists _, _. split; [reflexivity|]. split; [|reflexivity].
      intros _. right. split; [reflexivity|]. left. split; [lia|exact Ha].
  - destruct (Z.gtb_spec n 0) as [H0|H0]; cbn [andb negb].
    + destruct (Qgtb_spec e (1 # 100)) as [He|He].
      * eexists _, _. split; [reflexivity|]. split; [|reflexivity].
        intros _. right. split; [reflexivity|]. right. left. split; [lia|exact He].
      * destruct (Qgtb a 4); eexists _, _; (split; [reflexivity|]);
          (split; [discriminate|]);
          intros [H|[_ [[H _]|[[_ H]|[H _]]]]]; try lia; contradiction.
    + destruct (Qgtb_spec e (1 # 20)) as [He|He].
      * eexists _, _. split; [reflexivity|]. split; [|reflexivity].
        intros _. right. split; [reflexivity|]. right. right. split; [lia|exact He].
      * destruct (Qgtb a 4); eexists _, _; (split; [reflexivity|]);
          (split; [discriminate|]);
          intros [H|[_ [[H _]|[[H _]|[_ H]]]]]; try lia; contradiction.
Qed.

Lemma keep_decision_table_witness :
  exists keep reason,
    SmartFilter.is_valid_exam_paper
      (SmartFilter.artifact_ok SmartFilter.east_net) None
      (Sample.page 1240 1754 2 30000)
    = Ok ((keep, reason), Some SmartFilter.east_net)
    /\ (keep = true <->
        8 <= 2
        \/ (false = false
            /\ ((4 <= 2 < 8 /\ (13 # 10 <= 1754 # 1240)%Q)
                \/ (0 < 2 < 4 /\ (1 # 100 < 30000 # 2174960)%Q)
                \/ (2 <= 0 /\ (1 # 20 < 30000 # 2174960)%Q)))).
Proof.
  exact (keep_decision_table
           (SmartFilter.artifact_ok SmartFilter.east_net) None
           SmartFilter.east_net (Sample.page 1240 1754 2 30000) false
           SmartFilter.qr_none 2 30000 eq_refl
           ltac:(apply Z.leb_le; reflexivity) ltac:(apply Z.leb_le; reflexivity)
           eq_refl eq_refl eq_refl (fun _ _ => eq_refl)).
Defined.

(** X7. With the model loaded, an image that passes the dimension gate,
    on which line 119 returns and the text detector counts fewer than 8
    boxes, and that carries a QR flag (a decoded code above 5% of the
    image, or an undecoded pattern above 20%) is discarded, whatever its
    aspect ratio and whatever the edge detector would do. *)
Theorem prominent_qr_with_little_text_discarded
    (disk : SmartFilter.ModelArtifact) (_net : option SmartFilter.dnn_Net)
    (n0 : SmartFilter.dnn_Net) (img : Image) (qr : SmartFilter.QrReason)
    (n : Z) :
  SmartFilter.load_model disk _net = Some n0 ->
  MIN_IMAGE_DIMENSION <= fst (size img) ->
  MIN_IMAGE_DIMENSION <= snd (size img) ->
  bgr img = Ok tt ->
  SmartFilter.qr_stage img = SmartFilter.qr_continue true qr ->
  text_boxes img = Ok n ->
  n < 8 ->
  SmartFilter.is_valid_exam_paper disk _net img
  = Ok ((false, SmartFilter.qr_and_little_text qr n), Some n0).
Proof.
  intros Hload Hw Hh Hbgr Hqr Hboxes Hn.
  rewrite (is_valid_exam_paper_falls_through disk _net img true qr
             Hw Hh Hbgr Hqr).
  rewrite Hload, Hboxes. cbn [bind].
  rewrite (decision_after_gate img n 0 true qr Hw Hh)
    by (intros H; discriminate H).
  cbn [bind].
  destruct (Z.geb_spec n 8) as [H8|_]; [lia|reflexivity].
Qed.

Lemma prominent_qr_with_little_text_discarded_witness :
  SmartFilter.is_valid_exam_paper
    (SmartFilter.artifact_ok SmartFilter.east_net) None
    (Variant.page_with_pattern 600 800 (120000 # 1) 7 90000)
  = Ok ((false, SmartFilter.qr_and_little_text
                  (SmartFilter.qr_suspected (120000 # 480000)) 7),
        Some SmartFilter.east_net).
Proof.
  exact (prominent_qr_with_little_text_discarded
           (SmartFilter.artifact_ok SmartFilter.east_net) None
           SmartFilter.east_net
           (Variant.page_with_pattern 600 800 (120000 # 1) 7 90000)
           (SmartFilter.qr_suspected (120000 # 480000)) 7 eq_refl
           ltac:(apply Z.leb_le; reflexivity) ltac:(apply Z.leb_le; reflexivity)
           eq_refl eq_refl eq_refl eq_refl).
Defined.

(** X8. Without a model ([load_model] leaves [_net] at [None]) the
    results of the text and edge detectors play no part: two images that
    differ only in them get the same verdict. *)
Theorem no_model_ignores_text_and_edges
    (disk : SmartFilter.ModelArtifact) (_net : option SmartFilter.dnn_Net)
    (img : Image) (boxes edges : Z) :
  SmartFilter.load_model disk _net = None ->
  SmartFilter.is_valid_exam_paper disk _net
    (Variant.with_detections img boxes edges)
  = SmartFilter.is_valid_exam_paper disk _net img.
Proof.
  intros Hload.
  assert (E : SmartFilter.qr_stage (Variant.with_detections img boxes edges)
              = SmartFilter.qr_stage img) by reflexivity.
  unfold SmartFilter.is_valid_exam_paper. rewrite E.
  cbn [size bgr Variant.with_detections]. rewrite Hload. reflexivity.
Qed.

Lemma no_model_ignores_text_and_edges_witness :
  SmartFilter.is_valid_exam_paper SmartFilter.artifact_unreadable None
    (Variant.with_detections (Sample.page 600 800 0 0) 30 50000)
  = SmartFilter.is_valid_exam_paper SmartFilter.artifact_unreadable None
      (Sample.page 600 800 0 0).
Proof.
  exact (no_model_ignores_text_and_edges SmartFilter.artifact_unreadable None
           (Sample.page 600 800 0 0) 30 50000 eq_refl).
Defined.

(** ** Decoding the network's output *)

Section DecodeFacts.

Import East.
Local Open Scope list_scope.

Variable cell_box : nat -> nat -> list Z.

Lemma decode_row_cells (o : Scores) (t : Q) (y : nat) (xs : list nat) :
  forall acc,
    fold_left (decode_cell cell_box o t y) xs acc
    = (fst acc ++ map (fun x => cell_box y x)
                      (filter (fun x => negb (Qltb (scoresData o y x) t)) xs),
       snd acc ++ map (fun x => scoresData o y x)
                      (filter (fun x => negb (Qltb (scoresData o y x) t)) xs)).
Proof.
  induction xs as [|x xs IH]; intros [ds cs]; simpl.
  - now rewrite !app_nil_r.
  - rewrite IH. unfold decode_cell.
    destruct (Qltb (scoresData o y x) t); simpl; [reflexivity|].
    now rewrite <- !app_assoc.
Qed.

Lemma filter_list_prod_row (o : Scores) (t : Q) (y : nat) (xs : list nat) :
  filter (fun c => negb (Qltb (scoresData o (fst c) (snd c)) t))
         (map (fun x => (y, x)) xs)
  = map (fun x => (y, x))
        (filter (fun x => negb (Qltb (scoresData o y x) t)) xs).
Proof.
  induction xs as [|x xs IH]; simpl; [reflexivity|].
  destruct (negb (Qltb (scoresData o y x) t)); simpl; now rewrite IH.
Qed.

Lemma decode_rows_cells (o : Scores) (t : Q) (ys : list nat) :
  forall acc,
    fold_left (decode_row cell_box o t) ys acc
    = (fst acc ++ map (fun c => cell_box (fst c) (snd c))
                      (filter (fun c => negb (Qltb (scoresData o (fst c) (snd c)) t))
                              (list_prod ys (seq 0 (width o)))),
       snd acc ++ map (fun c => scoresData o (fst c) (snd c))
                      (filter (fun c => negb (Qltb (scoresData o (fst c) (snd c)) t))
                              (list_prod ys (seq 0 (width o))))).
Proof.
  induction ys as [|y ys IH]; intros [ds cs]; simpl.
  - now rewrite !app_nil_r.
  - rewrite IH. unfold decode_row. rewrite decode_row_cells.
    cbn [fst snd]. rewrite !filter_app, !map_app, filter_list_prod_row.
    rewrite !map_map. cbn [fst snd]. now rewrite <- !app_assoc.
Qed.

End DecodeFacts.

(** X9. [decode] visits the cells row by row and emits, for each cell
    whose score is not below the threshold, one box and one confidence,
    whatever boxes the geometry gives: the two lists it returns are
    parallel, the boxes are those of the confident cells in that order,
    the confidences are the scores of those cells, and none of them is
    below the threshold. *)
Theorem decode_one_box_per_confident_cell
    (cell_box : nat -> nat -> list Z) (o : East.Scores) (scoreThresh : Q) :
  let cells := East.confident_cells o scoreThresh in
  fst (East.decode cell_box o scoreThresh)
    = map (fun c => cell_box (fst c) (snd c)) cells
  /\ snd (East.decode cell_box o scoreThresh)
     = map (fun c => East.scoresData o (fst c) (snd c)) cells
  /\ List.length (fst (East.decode cell_box o scoreThresh))
     = List.length (snd (East.decode cell_box o scoreThresh))
  /\ Forall (fun c => (scoreThresh <= c)%Q)
            (snd (East.decode cell_box o scoreThresh)).
Proof.
  intros cells. unfold East.decode. rewrite decode_rows_cells. cbn [fst snd app].
  fold (East.confident_cells o scoreThresh). fold cells.
  split; [reflexivity|]. split; [reflexivity|].
  split; [now rewrite !length_map|].
  apply Forall_forall. intros c Hc.
  apply in_map_iff in Hc as (yx & <- & Hin).
  apply filter_In in Hin as [_ Hin]. apply negb_true_iff in Hin.
  destruct (Qltb_spec (East.scoresData o (fst yx) (snd yx)) scoreThresh)
    as [|Hn]; [discriminate|].
  now apply Qnot_lt_le.
Qed.

(** ** More on the fetch *)

Section MoreFetchFacts.

Import ArticleProcessor.
Local Open Scope list_scope.



End MoreFetchFacts.

(** X11. A response whose content type contains [text/html] or
    [image/svg], in any letter case, makes [download_single_image] return
    [None] without a chunk of the body read, whatever its status and
    length header. *)
Theorem markup_rejected_without_body
    (world : ArticleProcessor.World) (url : string)
    (resp : ArticleProcessor.Response) :
  ArticleProcessor.stream_GET world url = Ok resp ->
  (PyStr.contains "text/html"
     (PyStr.lower (ArticleProcessor.header_or
                     (ArticleProcessor.content_type resp) "")) = true
   \/ PyStr.contains "image/svg"
        (PyStr.lower (ArticleProcessor.header_or
                        (ArticleProcessor.content_type resp) "")) = true) ->
  ArticleProcessor.download_single_image world url
  = {| ArticleProcessor.returned := None; ArticleProcessor.chunks_read := 0 |}.
Proof.
  intros Hget Hct.
  unfold ArticleProcessor.download_single_image, ArticleProcessor.download_try.
  rewrite Hget. destruct (ArticleProcessor.status resp); [|reflexivity].
  assert (E : PyStr.contains "text/html"
                (PyStr.lower (ArticleProcessor.header_or
                                (ArticleProcessor.content_type resp) ""))
              || PyStr.contains "image/svg"
                   (PyStr.lower (ArticleProcessor.header_or
                                   (ArticleProcessor.content_type resp) ""))
              = true).
  { apply orb_true_iff. exact Hct. }
  rewrite E. reflexivity.
Qed.

Lemma markup_rejected_without_body_witness :
  ArticleProcessor.download_single_image (Server.always Server.login_page)
    "https://mmbiz.qpic.cn/mmbiz_jpg/Xk3/0"
  = {| ArticleProcessor.returned := None; ArticleProcessor.chunks_read := 0 |}.
Proof.
  exact (markup_rejected_without_body (Server.always Server.login_page)
           "https://mmbiz.qpic.cn/mmbiz_jpg/Xk3/0" Server.login_page
           eq_refl (or_introl eq_refl)).
Defined.

(** X12. A response that passes the status and content-type tests and
    whose [Content-Length] is a non-empty text that [int()] rejects makes
    [download_single_image] return [None] without a chunk of the body
    read: the [ValueError] ends in the handler like any other failure. *)
Theorem unparsable_length_rejected_without_body
    (world : ArticleProcessor.World) (url : string)
    (resp : ArticleProcessor.Response) (s : string) :
  ArticleProcessor.stream_GET world url = Ok resp ->
  ArticleProcessor.content_length resp = Some s ->
  s <> "" ->
  PyStr.int s = None ->
  ArticleProcessor.download_single_image world url
  = {| ArticleProcessor.returned := None; ArticleProcessor.chunks_read := 0 |}.
Proof.
  intros Hget Hs Hne Hint.
  unfold ArticleProcessor.download_single_image, ArticleProcessor.download_try.
  rewrite Hget. destruct (ArticleProcessor.status resp); [|reflexivity].
  destruct (_ || _); [reflexivity|].
  rewrite Hs. unfold ArticleProcessor.length_exceeds.
  destruct s as [|c s]; [congruence|]. rewrite Hint. reflexivity.
Qed.

Lemma unparsable_length_rejected_without_body_witness :
  ArticleProcessor.download_single_image (Server.always Server.bad_length)
    "https://mmbiz.qpic.cn/mmbiz_jpg/Xk3/0"
  = {| ArticleProcessor.returned := None; ArticleProcessor.chunks_read := 0 |}.
Proof.
  refine (unparsable_length_rejected_without_body
            (Server.always Server.bad_length)
            "https://mmbiz.qpic.cn/mmbiz_jpg/Xk3/0" Server.bad_length
            "12 bytes" eq_refl eq_refl _ eq_refl).
  discriminate.
Defined.



(** X14. A response that passes the status, content-type and length
    header tests, whose stream does not break and whose body is at most
    10 MB long (exactly 10 MB included) is read to its last chunk and
    handed, whole, to the decoder and the dimension gate. *)
Theorem body_within_limit_is_decoded
    (world : ArticleProcessor.World) (url : string)
    (resp : ArticleProcessor.Response) :
  ArticleProcessor.stream_GET world url = Ok resp ->
  ArticleProcessor.status resp = Ok tt ->
  PyStr.contains "text/html"
    (PyStr.lower (ArticleProcessor.header_or
                    (ArticleProcessor.content_type resp) "")) = false ->
  PyStr.contains "image/svg"
    (PyStr.lower (ArticleProcessor.header_or
                    (ArticleProcessor.content_type resp) "")) = false ->
  ArticleProcessor.length_exceeds (ArticleProcessor.content_length resp)
    = Ok false ->
  ArticleProcessor.body_breaks resp = false ->
  ArticleProcessor.len (List.concat (ArticleProcessor.body resp))
    <= MAX_IMAGE_SIZE_BYTES ->
  ArticleProcessor.download_single_image world url
  = {| ArticleProcessor.returned :=
         ArticleProcessor.decode_and_gate world url
           (List.concat (ArticleProcessor.body resp));
       ArticleProcessor.chunks_read := List.length (ArticleProcessor.body resp) |}.
Proof.
  intros Hget Hst Hhtml Hsvg Hlen Hbr Hle.
  unfold ArticleProcessor.download_single_image, ArticleProcessor.download_try.
  rewrite Hget, Hst, Hhtml, Hsvg, Hlen. cbn [orb].
  rewrite (read_body_fits (ArticleProcessor.body resp) [] 0) by exact Hle.
  rewrite Hbr. reflexivity.
Qed.

Lemma body_within_limit_is_decoded_witness :
  ArticleProcessor.len (List.concat [Sample.zeros MAX_IMAGE_SIZE_BYTES])
    = MAX_IMAGE_SIZE_BYTES
  /\ ArticleProcessor.download_single_image (Server.always Server.full_size)
       "https://mmbiz.qpic.cn/a/0"
     = {| ArticleProcessor.returned :=
            ArticleProcessor.decode_and_gate (Server.always Server.full_size)
              "https://mmbiz.qpic.cn/a/0"
              (List.concat [Sample.zeros MAX_IMAGE_SIZE_BYTES]);
          ArticleProcessor.chunks_read := 1 |}.
Proof.
  assert (H0 : 0 <= MAX_IMAGE_SIZE_BYTES) by (unfold MAX_IMAGE_SIZE_BYTES; lia).
  assert (H : ArticleProcessor.len
                (List.concat [Sample.zeros MAX_IMAGE_SIZE_BYTES])
              = MAX_IMAGE_SIZE_BYTES) by exact (len_single_zeros _ H0).
  split; [exact H|].
  exact (body_within_limit_is_decoded (Server.always Server.full_size)
           "https://mmbiz.qpic.cn/a/0" Server.full_size
           eq_refl eq_refl eq_refl eq_refl eq_refl eq_refl
           (Z.eq_le_incl _ _ H)).
Defined.

(** ** More on the batch *)

Section MoreBatchFacts.

Import SmartFilter ArticleProcessor.
Local Open Scope list_scope.


Lemma filter_length_le {A : Type} (f : A -> bool) (l : list A) :
  (List.length (filter f l) <= List.length l)%nat.
Proof.
  induction l as [|x l IH]; simpl; [lia|]. destruct (f x); simpl; lia.
Qed.

Lemma fetched_length (world : World) (urls : list string) :
  (List.length (fetched world urls) <= List.length urls)%nat.
Proof.
  unfold fetched. induction urls as [|u urls IH]; simpl; [lia|].
  rewrite length_app.
  destruct (returned (download_single_image world u)); simpl; lia.
Qed.

End MoreBatchFacts.

(** The batch without the filter. *)
Lemma download_images_no_filter
    (world : ArticleProcessor.World) (disk : SmartFilter.ModelArtifact)
    (_net : option SmartFilter.dnn_Net) (urls : list string)
    (save_discarded : bool) :
  ArticleProcessor.download_images world disk _net urls true save_discarded
  = Ok {| ArticleProcessor.images :=
            map ArticleProcessor.image_of (ArticleProcessor.fetched world urls);
          ArticleProcessor.saved_discarded := [];
          ArticleProcessor.net_after := _net |}.
Proof.
  unfold ArticleProcessor.download_images. rewrite collect_fetched.
  destruct (ArticleProcessor.fetched world urls); reflexivity.
Qed.

(** X15. With [no_filter], [download_images] returns the images of all
    candidates, in the order of the URL list; it saves nothing and leaves
    [SmartFilter._net] as it found it, the classifier never being called. *)
Theorem no_filter_returns_every_candidate
    (world : ArticleProcessor.World) (disk : SmartFilter.ModelArtifact)
    (_net : option SmartFilter.dnn_Net) (urls : list string)
    (save_discarded : bool) :
  ArticleProcessor.download_images world disk _net urls true save_discarded
  = Ok {| ArticleProcessor.images :=
            map ArticleProcessor.image_of (ArticleProcessor.fetched world urls);
          ArticleProcessor.saved_discarded := [];
          ArticleProcessor.net_after := _net |}.
Proof.
  exact (download_images_no_filter world disk _net urls save_discarded).
Qed.

(** X16. When no fetch returns a candidate (an empty URL list, or every
    fetch failing or being rejected), [download_images] returns the empty
    list in both modes, without calling the classifier or loading the
    model. *)
Theorem nothing_fetched_nothing_returned
    (world : ArticleProcessor.World) (disk : SmartFilter.ModelArtifact)
    (_net : option SmartFilter.dnn_Net) (urls : list string)
    (no_filter save_discarded : bool) :
  Forall (fun url =>
            ArticleProcessor.returned
              (ArticleProcessor.download_single_image world url) = None) urls ->
  ArticleProcessor.download_images world disk _net urls no_filter save_discarded
  = Ok {| ArticleProcessor.images := [];
          ArticleProcessor.saved_discarded := [];
          ArticleProcessor.net_after := _net |}.
Proof.
  intros H. unfold ArticleProcessor.download_images. rewrite collect_fetched.
  assert (E : ArticleProcessor.fetched world urls = []).
  { unfold ArticleProcessor.fetched. induction H as [|u urls Hu _ IH]; simpl.
    - reflexivity.
    - now rewrite Hu, IH. }
  now rewrite E.
Qed.

Lemma nothing_fetched_nothing_returned_witness :
  ArticleProcessor.download_images Sample.article
    (SmartFilter.artifact_ok SmartFilter.east_net) None
    ["https://mmbiz.qpic.cn/icon"; "https://mmbiz.qpic.cn/gone"] false true
  = Ok {| ArticleProcessor.images := [];
          ArticleProcessor.saved_discarded := [];
          ArticleProcessor.net_after := None |}.
Proof.
  apply nothing_fetched_nothing_returned.
  repeat constructor.
Defined.



(** X18. Filtering only removes: when [download_images] returns with the
    filter on, the images it returns are among those it returns with
    [no_filter], and neither list is longer than the URL list. *)
Theorem filter_only_removes
    (world : ArticleProcessor.World) (disk : SmartFilter.ModelArtifact)
    (_net : option SmartFilter.dnn_Net) (urls : list string)
    (save_discarded : bool) (filtered : ArticleProcessor.Batch) :
  ArticleProcessor.download_images world disk _net urls false save_discarded
    = Ok filtered ->
  exists unfiltered,
    ArticleProcessor.download_images world disk _net urls true save_discarded
      = Ok unfiltered
    /\ incl (ArticleProcessor.images filtered)
            (ArticleProcessor.images unfiltered)
    /\ (List.length (ArticleProcessor.images filtered)
        <= List.length (ArticleProcessor.images unfiltered)
        <= List.length urls)%nat.
Proof.
  intros Ef.
  pose proof (download_images_filter world disk _net urls false save_discarded
                filtered Ef) as Hf.
  eexists. split; [apply download_images_no_filter|].
  cbn [ArticleProcessor.images]. rewrite Hf. cbn [orb]. split.
  - intros img Hin. apply in_map_iff in Hin as (c & <- & Hc).
    apply filter_In in Hc as [Hc _]. now apply in_map.
  - rewrite !length_map. split; [apply filter_length_le|apply fetched_length].
Qed.

Lemma filter_only_removes_witness :
  let urls := ["https://mmbiz.qpic.cn/poster"; "https://mmbiz.qpic.cn/icon";
               "https://mmbiz.qpic.cn/gone"; "https://mmbiz.qpic.cn/page"] in
  let disk := SmartFilter.artifact_ok SmartFilter.east_net in
  let page := Sample.page 1240 1754 40 9000 in
  let filtered := {| ArticleProcessor.images := [page];
                     ArticleProcessor.saved_discarded := [];
                     ArticleProcessor.net_after := Some SmartFilter.east_net |} in
  ArticleProcessor.download_images Sample.article disk None urls false false
  = Ok filtered
  /\ exists unfiltered,
       ArticleProcessor.download_images Sample.article disk None urls true false
       = Ok unfiltered
       /\ incl (ArticleProcessor.images filtered)
               (ArticleProcessor.images unfiltered)
       /\ (List.length (ArticleProcessor.images filtered)
           <= List.length (ArticleProcessor.images unfiltered)
           <= List.length urls)%nat.
Proof.
  intros urls disk page filtered.
  split; [reflexivity|].
  exact (filter_only_removes Sample.article disk None urls false filtered
           eq_refl).
Defined.

(** X28. [download_images] returns when the library calls it makes
    outside a [try] do: the conversion, the text detector and the edge
    detector on every candidate and, when discarded images are saved, the
    creation of the directory and each save. The images returned are
    then those of the candidates that pass the classifier, or of all
    candidates under [no_filter], in the order of the URLs that gave a
    candidate. *)
Theorem download_images_returns_when_library_does
    (world : ArticleProcessor.World) (disk : SmartFilter.ModelArtifact)
    (_net : option SmartFilter.dnn_Net) (urls : list string)
    (no_filter save_discarded : bool) :
  (forall c, In c (ArticleProcessor.fetched world urls) ->
     bgr (ArticleProcessor.image_of c) = Ok tt
     /\ (exists boxes, text_boxes (ArticleProcessor.image_of c) = Ok boxes)
     /\ (exists k, edge_pixels (ArticleProcessor.image_of c) = Ok k)) ->
  (save_discarded = true ->
     ArticleProcessor.makedirs world = Ok tt
     /\ forall img, ArticleProcessor.Image_save world img = Ok tt) ->
  exists b,
    ArticleProcessor.download_images world disk _net urls no_filter
      save_discarded = Ok b
    /\ ArticleProcessor.images b
       = map ArticleProcessor.image_of
           (filter (fun c => no_filter || ArticleProcessor.passes disk _net c)
                   (ArticleProcessor.fetched world urls))
    /\ map snd (ArticleProcessor.fetched world urls)
       = filter (fun url =>
                   match ArticleProcessor.returned
                           (ArticleProcessor.download_single_image world url)
                   with
                   | Some _ => true
                   | None => false
                   end) urls.
Proof.
  intros Hlib Hsave.
  assert (Hret : exists b,
             ArticleProcessor.download_images world disk _net urls no_filter
               save_discarded = Ok b).
  { unfold ArticleProcessor.download_images. rewrite collect_fetched.
    destruct (ArticleProcessor.fetched world urls) as [|c cs] eqn:E;
      [eexists; reflexivity|].
    destruct no_filter; [eexists; reflexivity|].
    destruct (filter_loop_returns disk save_discarded (c :: cs)) with
      (acc := {| ArticleProcessor.final_images := [];
                 ArticleProcessor.discarded_images := [] |}) (s := _net)
      as (f & s' & Ef).
    - intros c' Hc' s.
      destruct (Hlib c' Hc') as (Hb & [boxes Hn] & [k Hk]).
      destruct (is_valid_exam_paper_net disk s (ArticleProcessor.image_of c')
                  boxes k Hb Hn Hk) as (v & s1 & Hv & _).
      exists v, s1. exact Hv.
    - rewrite Ef. cbn [bind].
      assert (Hw : ArticleProcessor.write_discarded world save_discarded
                     (ArticleProcessor.discarded_images f) = Ok tt).
      { unfold ArticleProcessor.write_discarded.
        destruct save_discarded; [|reflexivity].
        destruct (ArticleProcessor.discarded_images f) as [|d ds];
          [reflexivity|].
        destruct (Hsave eq_refl) as [Hm Hs]. rewrite Hm. cbn [bind].
        apply save_each_returns. intros img _. apply Hs. }
      rewrite Hw. cbn [bind]. eexists; reflexivity. }
  destruct Hret as [b Hb]. exists b. split; [exact Hb|].
  split; [|apply fetched_urls].
  exact (download_images_filter world disk _net urls no_filter save_discarded
           b Hb).
Qed.

Lemma download_images_returns_when_library_does_witness :
  let urls := ["https://mmbiz.qpic.cn/poster"; "https://mmbiz.qpic.cn/icon";
               "https://mmbiz.qpic.cn/gone"; "https://mmbiz.qpic.cn/page"] in
  let disk := SmartFilter.artifact_ok SmartFilter.east_net in
  exists b,
    ArticleProcessor.download_images Sample.article disk None urls false true
    = Ok b
    /\ ArticleProcessor.images b
       = map ArticleProcessor.image_of
           (filter (fun c => false || ArticleProcessor.passes disk None c)
                   (ArticleProcessor.fetched Sample.article urls))
    /\ map snd (ArticleProcessor.fetched Sample.article urls)
       = filter (fun url =>
                   match ArticleProcessor.returned
                           (ArticleProcessor.download_single_image
                              Sample.article url)
                   with
                   | Some _ => true
                   | None => false
                   end) urls.
Proof.
  intros urls disk.
  apply (download_images_returns_when_library_does Sample.article disk None
           urls false true).
  - intros c [<-|[<-|[]]]; (split; [reflexivity|]);
      split; eexists; reflexivity.
  - intros _. split; [reflexivity|]. intros img. reflexivity.
Defined.

(** ** More on the admission gate *)

Section MoreGateFacts.

Import ArticleProcessor Gate.
Local Open Scope list_scope.

Lemma Forall2_update {A B : Type} (R : A -> B -> Prop) (x : A) :
  forall (l : list A) (l' : list B) (i : nat),
    Forall2 R l l' ->
    (forall b, nth_error l' i = Some b -> R x b) ->
    Forall2 R (update i x l) l'.
Proof.
  intros l l' i H. revert i.
  induction H as [|a b l l' Hab Hl IH]; intros i Hx.
  - destruct i; constructor.
  - destruct i as [|i]; simpl; constructor; auto.
Qed.

Lemma start_holds (world : World) (urls : list string) :
  Forall2 (holds_result_of world) (tasks (start urls)) urls.
Proof.
  unfold start. cbn [tasks].
  induction urls as [|u urls IH]; simpl; constructor; [|exact IH].
  intros r H. discriminate H.
Qed.

Lemma step_holds (world : World) (urls : list string) (e : Event)
    (l l' : Loop) :
  Forall2 (holds_result_of world) (tasks l) urls ->
  step world urls e l = Some l' ->
  Forall2 (holds_result_of world) (tasks l') urls.
Proof.
  intros H. destruct e as [i|i|i]; unfold step.
  - destruct (nth_error (tasks l) i) as [[]|]; try discriminate.
    destruct (value l >? 0); [|discriminate].
    intros E; injection E as <-. cbn [tasks].
    apply Forall2_update; [exact H|]. intros b _ r Hr. discriminate Hr.
  - destruct (nth_error (tasks l) i) as [[]|]; try discriminate.
    destruct (nth_error urls i) as [url|] eqn:Eu; [|discriminate].
    intros E; injection E as <-. cbn [tasks].
    apply Forall2_update; [exact H|].
    intros b Hb r Hr. injection Hr as <-. congruence.
  - destruct (nth_error (tasks l) i) as [[]|]; try discriminate;
      intros E; injection E as <-; cbn [tasks];
      (apply Forall2_update; [exact H|]); intros b _ r Hr; discriminate Hr.
Qed.

Lemma run_holds (world : World) (urls : list string) (schedule : list Event) :
  forall l l',
    Forall2 (holds_result_of world) (tasks l) urls ->
    run world urls schedule l = Some l' ->
    Forall2 (holds_result_of world) (tasks l') urls.
Proof.
  induction schedule as [|e rest IH]; intros l l' H; simpl.
  - intros E; injection E as <-. exact H.
  - destruct (step world urls e l) as [l1|] eqn:E; [|discriminate].
    apply IH. exact (step_holds world urls e l l1 H E).
Qed.

Lemma no_fetching_count (ts : list Task) :
  existsb is_fetching ts = false -> fetching_count ts = 0.
Proof.
  unfold fetching_count. induction ts as [|t ts IH]; simpl; [reflexivity|].
  destruct (is_fetching t); simpl; [discriminate|exact IH].
Qed.

Lemma all_finished_results (world : World) (ts : list Task)
    (urls : list string) :
  Forall2 (holds_result_of world) ts urls ->
  (forall t, In t ts -> exists r, t = finished r) ->
  ts = map (fun url => finished (returned (download_single_image world url)))
           urls.
Proof.
  intros H. induction H as [|t url ts urls' Ht Hts IH]; intros Hall;
    [reflexivity|].
  simpl. f_equal.
  - destruct (Hall t (or_introl eq_refl)) as [r ->].
    now rewrite (Ht r eq_refl).
  - apply IH. intros t' Hin. apply Hall. now right.
Qed.

End MoreGateFacts.

(** X19. The gate does not disturb what the batch collects: however the
    event loop interleaves the tasks, once every task has finished the
    results, task by task, are what [download_single_image] returns for the
    URLs, in the order of the URL list. *)
Theorem gathered_results_follow_the_urls
    (world : ArticleProcessor.World) (urls : list string)
    (schedule : list Gate.Event) (l : Gate.Loop) :
  Gate.run world urls schedule (Gate.start urls) = Some l ->
  (forall t, In t (Gate.tasks l) -> exists r, t = Gate.finished r) ->
  Gate.tasks l
  = map (fun url =>
           Gate.finished
             (ArticleProcessor.returned
                (ArticleProcessor.download_single_image world url))) urls.
Proof.
  intros Hrun Hall.
  apply all_finished_results; [|exact Hall].
  exact (run_holds world urls schedule _ _ (start_holds world urls) Hrun).
Qed.

Lemma gathered_results_follow_the_urls_witness :
  let urls := ["https://mmbiz.qpic.cn/icon"; "https://mmbiz.qpic.cn/page"] in
  let schedule := [Gate.Acquire 1; Gate.Acquire 0; Gate.Complete 1;
                   Gate.Complete 0] in
  match Gate.run Sample.article urls schedule (Gate.start urls) with
  | Some l =>
      Gate.tasks l
      = map (fun url =>
               Gate.finished
                 (ArticleProcessor.returned
                    (ArticleProcessor.download_single_image Sample.article url)))
            urls
  | None => False
  end.
Proof.
  intros urls schedule.
  destruct (Gate.run Sample.article urls schedule (Gate.start urls))
    as [l|] eqn:E.
  - apply (gathered_results_follow_the_urls Sample.article urls schedule l E).
    vm_compute in E. injection E as <-.
    intros t [<-|[<-|[]]]; eexists; reflexivity.
  - vm_compute in E. discriminate E.
Defined.

(** X20. The gate cannot block the batch: in every state the event loop
    can reach, as long as some task is still waiting or fetching, a
    waiting task can take a slot or a fetching one can complete. *)
Theorem gate_never_deadlocks
    (world : ArticleProcessor.World) (urls : list string)
    (schedule : list Gate.Event) (l : Gate.Loop) (i : nat) :
  Gate.run world urls schedule (Gate.start urls) = Some l ->
  (nth_error (Gate.tasks l) i = Some Gate.waiting
   \/ nth_error (Gate.tasks l) i = Some Gate.fetching) ->
  exists j l',
    Gate.step world urls (Gate.Acquire j) l = Some l'
    \/ Gate.step world urls (Gate.Complete j) l = Some l'.
Proof.
  intros Hrun Hi.
  pose proof (run_holds world urls schedule _ _ (start_holds world urls) Hrun)
    as Hholds.
  destruct (run_balanced world urls schedule _ _ (start_balanced urls) Hrun)
    as [Hsum Hpos].
  destruct (existsb Gate.is_fetching (Gate.tasks l)) eqn:Ef.
  - apply existsb_exists in Ef as (t & Hin & Ht).
    destruct t; try discriminate.
    apply In_nth_error in Hin as [j Hj].
    assert (Hlen : (j < List.length urls)%nat).
    { rewrite <- (Forall2_length Hholds). apply nth_error_Some. congruence. }
    destruct (nth_error urls j) as [url|] eqn:Eu;
      [|apply nth_error_None in Eu; lia].
    exists j. eexists. right. unfold Gate.step. rewrite Hj, Eu. reflexivity.
  - destruct Hi as [Hi|Hi].
    + exists i. eexists. left. unfold Gate.step. rewrite Hi.
      unfold Gate.active in Hsum. rewrite (no_fetching_count _ Ef) in Hsum.
      destruct (Z.gtb_spec (Gate.value l) 0) as [_|H]; [reflexivity|].
      unfold MAX_CONCURRENT_DOWNLOADS in Hsum. lia.
    + exfalso. apply nth_error_In in Hi.
      assert (H : existsb Gate.is_fetching (Gate.tasks l) = true).
      { apply existsb_exists. exists Gate.fetching. split; [exact Hi|reflexivity]. }
      congruence.
Qed.

Lemma gate_never_deadlocks_witness :
  let urls := map (fun n => "https://mmbiz.qpic.cn/" ++ n)
                ["page"; "icon"; "poster"; "a"; "b"; "c"; "d"; "e"; "f"; "g";
                 "h"; "i"] in
  let schedule :=
    [Gate.Acquire 0; Gate.Acquire 1; Gate.Acquire 2; Gate.Acquire 3;
     Gate.Acquire 4; Gate.Acquire 5; Gate.Acquire 6; Gate.Acquire 7;
     Gate.Acquire 8; Gate.Acquire 9] in
  match Gate.run Sample.article urls schedule (Gate.start urls) with
  | Some l =>
      Gate.step Sample.article urls (Gate.Acquire 11) l = None
      /\ exists j l',
           Gate.step Sample.article urls (Gate.Acquire j) l = Some l'
           \/ Gate.step Sample.article urls (Gate.Complete j) l = Some l'
  | None => False
  end.
Proof.
  intros urls schedule.
  destruct (Gate.run Sample.article urls schedule (Gate.start urls))
    as [l|] eqn:E.
  - split.
    + vm_compute in E. injection E as <-. reflexivity.
    + apply (gate_never_deadlocks Sample.article urls schedule l 11 E).
      left. vm_compute in E. injection E as <-. reflexivity.
  - vm_compute in E. discriminate E.
Defined.

(** ** The command line and the API handler *)

(** X21. When the command line tool ends with a PDF written, the save
    call returned, it was directed to the path given as output, it was
    handed at least one image and no more images than the article has
    distinct image URLs, and every image handed to it has both sides at
    least 300 pixels. *)
Theorem cli_pdf_images
    (site : Service.Site) (args : Service.Args) (call : Service.PdfSave) :
  Service.main site args = Service.pdf_written call ->
  Service.target call = Some (Service.output args)
  /\ Service.pdf_save site call = Ok tt
  /\ Service.saved_images call <> []
  /\ (forall img, In img (Service.saved_images call) ->
        MIN_IMAGE_DIMENSION <= fst (size img)
        /\ MIN_IMAGE_DIMENSION <= snd (size img))
  /\ exists html,
       Service.fetch_html site (Service.url args) = Ok html
       /\ (List.length (Service.saved_images call)
           <= List.length (Extract.extract_image_urls
                             (Service.find_all_img site html)))%nat.
Proof.
  unfold Service.main, Service.async_main_try.
  destruct (Service.fetch_html site (Service.url args)) as [html|];
    cbn [bind]; [|discriminate].
  set (urls := Extract.extract_image_urls (Service.find_all_img site html)).
  destruct urls as [|u urls'] eqn:Eu; [discriminate|]. rewrite <- Eu.
  destruct (ArticleProcessor.download_images (Service.world site)
              (Service.disk site)
              (SmartFilter.load_model (Service.disk site) None) urls
              (Service.no_filter args) (Service.save_discarded args))
    as [b|e] eqn:Eb; cbn [bind]; [|discriminate].
  pose proof (download_images_filter _ _ _ _ _ _ b Eb) as Himg.
  destruct (ArticleProcessor.images b) as [|first rest] eqn:Ei; [discriminate|].
  unfold Service.save_images_as_pdf.
  destruct (Service.pdf_save site _) as [[]|] eqn:Ew;
    cbn [bind]; [|discriminate].
  intros H; injection H as <-. cbn [Service.target Service.saved_images].
  split; [reflexivity|]. split; [exact Ew|]. split; [discriminate|].
  rewrite Himg. split.
  - intros page Hin. apply in_map_iff in Hin as (c & <- & Hc).
    apply filter_In in Hc as [Hc _].
    exact (fetched_dimensions (Service.world site) urls c Hc).
  - exists html. split; [reflexivity|]. rewrite length_map.
    etransitivity; [apply filter_length_le|apply fetched_length].
Qed.

Lemma cli_pdf_images_witness :
  let args := {| Service.url := "https://mp.weixin.qq.com/s/abc";
                 Service.output := "output/output.pdf";
                 Service.no_filter := false;
                 Service.save_discarded := false |} in
  let call := {| Service.target := Some "output/output.pdf";
                 Service.saved_images := [Sample.page 1240 1754 40 9000] |} in
  Service.main Service.exam_site args = Service.pdf_written call
  /\ (Service.target call = Some (Service.output args)
      /\ Service.pdf_save Service.exam_site call = Ok tt
      /\ Service.saved_images call <> []
      /\ (forall img, In img (Service.saved_images call) ->
            MIN_IMAGE_DIMENSION <= fst (size img)
            /\ MIN_IMAGE_DIMENSION <= snd (size img))
      /\ exists html,
           Service.fetch_html Service.exam_site (Service.url args) = Ok html
           /\ (List.length (Service.saved_images call)
               <= List.length (Extract.extract_image_urls
                                 (Service.find_all_img Service.exam_site html)))%nat).
Proof.
  intros args call. split; [reflexivity|].
  exact (cli_pdf_images Service.exam_site args call eq_refl).
Defined.


(** The three answers of the handler on sample articles: the scanned
    page, under either mode, ends at line 99; a greyscale scan with the
    filter on ends in the classifier. *)
Example convert_to_pdf_answers :
  Service.convert_to_pdf Service.exam_site None
    {| Service.req_url := "https://mp.weixin.qq.com/s/abc";
       Service.req_no_filter := false |}
  = Service.HTTPException 500 (Service.str_of (Service.NameError "asyncio"))
  /\ Service.convert_to_pdf Service.scan_site None
       {| Service.req_url := "https://mp.weixin.qq.com/s/abc";
          Service.req_no_filter := false |}
     = Service.HTTPException 500
         (Service.str_of (Service.Propagated LibraryError))
  /\ Service.convert_to_pdf Service.scan_site None
       {| Service.req_url := "https://mp.weixin.qq.com/s/abc";
          Service.req_no_filter := true |}
     = Service.HTTPException 500 (Service.str_of (Service.NameError "asyncio")).
Proof. repeat split. Qed.

(** ** More on the URLs *)

Section MoreUrlFacts.

Import PyStr ArticleUrl Extract.
Local Open Scope list_scope.

Lemma extract_loop_extends (imgs : list ImgTag) :
  forall urls seen, exists more, extract_loop imgs urls seen = urls ++ more.
Proof.
  induction imgs as [|img rest IH]; intros urls seen.
  - exists []. simpl. now rewrite app_nil_r.
  - rewrite extract_loop_step. destruct (tag_url img) as [u|]; [|apply IH].
    destruct (seen_has seen u); [apply IH|].
    destruct (IH (urls ++ [u]) (u :: seen)) as [more ->].
    exists (u :: more). now rewrite <- app_assoc.
Qed.

Lemma extract_loop_app (a b : list ImgTag) :
  forall urls seen,
    exists more,
      extract_loop (a ++ b) urls seen = extract_loop a urls seen ++ more.
Proof.
  induction a as [|img a IH]; intros urls seen.
  - simpl. apply extract_loop_extends.
  - rewrite <- app_comm_cons, !extract_loop_step.
    destruct (tag_url img) as [u|]; [|apply IH].
    destruct (seen_has seen u); apply IH.
Qed.

End MoreUrlFacts.

(** X23. A URL in which [https://mmbiz.qpic.cn/] does not occur is
    returned by [normalize_image_url] as it is. *)
Theorem other_hosts_unchanged (url : string) :
  PyStr.contains ArticleUrl.host_lit url = false ->
  ArticleUrl.normalize_image_url url = url.
Proof.
  intros H. unfold ArticleUrl.normalize_image_url.
  destruct (ArticleUrl.re_search url) as [base|] eqn:E; [|reflexivity].
  apply re_search_contains in E. congruence.
Qed.

Lemma other_hosts_unchanged_witness :
  ArticleUrl.normalize_image_url "http://mmbiz.qpic.cn/mmbiz_jpg/Xk3/640?wx_fmt=jpeg"
  = "http://mmbiz.qpic.cn/mmbiz_jpg/Xk3/640?wx_fmt=jpeg".
Proof.
  exact (other_hosts_unchanged
           "http://mmbiz.qpic.cn/mmbiz_jpg/Xk3/640?wx_fmt=jpeg" eq_refl).
Defined.

(** X24. [normalize_image_url] has two kinds of results only: the URL as
    it came, or a URL that starts with [https://mmbiz.qpic.cn/], ends with
    the segment [0] and has no question mark (anything that stood before
    the host in the input is gone with the query). *)
Theorem normalize_image_url_result_shape (url : string) :
  ArticleUrl.normalize_image_url url = url
  \/ exists p,
       ArticleUrl.normalize_image_url url = p ++ "/0"
       /\ String.prefix ArticleUrl.host_lit (p ++ "/") = true
       /\ PyStr.contains "?" (ArticleUrl.normalize_image_url url) = false.
Proof.
  destruct (normalize_cases url) as [E|(p & E & Hp & Hn)]; [now left|].
  right. exists p. split; [exact E|]. split; [exact Hp|].
  rewrite E. apply no_qmark_contains.
  apply no_qmark_app. split; [exact Hn|reflexivity].
Qed.

(** X25. [extract_image_urls] keeps the order in which the URLs first
    appear: the tags further down the page add to the end of the list and
    never change what the tags before them gave. *)
Theorem extract_image_urls_first_seen_order (imgs more : list Extract.ImgTag) :
  exists added,
    Extract.extract_image_urls (imgs ++ more)%list
    = (Extract.extract_image_urls imgs ++ added)%list.
Proof.
  exact (extract_loop_app imgs more [] []).
Qed.

(** X26. Two tags whose sources are the same picture at two resolutions
    ([P/D1] and [P/D2], each with or without a query, [P/] starting with
    the host and the [D]s numeric) give one URL, [P/0]. *)
Theorem extract_image_urls_merges_resolutions
    (p d1 d2 : string) (q1 q2 : option string) :
  let u1 := ArticleUrl.with_query (p ++ "/" ++ d1) q1 in
  let u2 := ArticleUrl.with_query (p ++ "/" ++ d2) q2 in
  String.prefix ArticleUrl.host_lit (p ++ "/") = true ->
  PyStr.contains "?" p = false ->
  PyStr.isdigit d1 = true ->
  PyStr.isdigit d2 = true ->
  Extract.strip u1 = u1 ->
  Extract.strip u2 = u2 ->
  Extract.extract_image_urls [Extract.lazy_img u1; Extract.lazy_img u2]
  = [p ++ "/0"].
Proof.
  intros u1 u2 Hp Hq H1 H2 Hs1 Hs2. apply contains_qmark in Hq.
  assert (E : forall d q, PyStr.isdigit d = true ->
            ArticleUrl.normalize_image_url
              (ArticleUrl.with_query (p ++ "/" ++ d) q) = p ++ "/0").
  { intros d q Hd.
    destruct (with_query_suffix (p ++ "/" ++ d) q) as (s & -> & Hs).
    rewrite !string_app_assoc. now apply normalize_numeric. }
  assert (Hne : forall d q, PyStr.isdigit d = true ->
            ArticleUrl.with_query (p ++ "/" ++ d) q <> "").
  { intros d q Hd Habs. specialize (E d q Hd). rewrite Habs in E.
    destruct p; discriminate E. }
  assert (T : forall d q, PyStr.isdigit d = true ->
            Extract.strip (ArticleUrl.with_query (p ++ "/" ++ d) q)
            = ArticleUrl.with_query (p ++ "/" ++ d) q ->
            Extract.tag_url
              (Extract.lazy_img (ArticleUrl.with_query (p ++ "/" ++ d) q))
            = Some (p ++ "/0")).
  { intros d q Hd Hs. unfold Extract.tag_url, Extract.lazy_img.
    cbn [Extract.data_src Extract.data_original Extract.src].
    specialize (Hne d q Hd). specialize (E d q Hd).
    destruct (ArticleUrl.with_query (p ++ "/" ++ d) q) as [|c s] eqn:Eu;
      [congruence|].
    cbn [Extract.py_or]. rewrite Hs. now rewrite E. }
  unfold Extract.extract_image_urls.
  rewrite extract_loop_step. unfold u1. rewrite (T d1 q1 H1 Hs1).
  cbn [Extract.seen_has existsb].
  rewrite extract_loop_step. unfold u2. rewrite (T d2 q2 H2 Hs2).
  cbn [Extract.seen_has existsb app]. rewrite String.eqb_refl. reflexivity.
Qed.

Lemma extract_image_urls_merges_resolutions_witness :
  Extract.extract_image_urls
    [Extract.lazy_img "https://mmbiz.qpic.cn/mmbiz_jpg/Xk3/640?wx_fmt=jpeg";
     Extract.lazy_img "https://mmbiz.qpic.cn/mmbiz_jpg/Xk3/1080"]
  = ["https://mmbiz.qpic.cn/mmbiz_jpg/Xk3/0"].
Proof.
  exact (extract_image_urls_merges_resolutions
           "https://mmbiz.qpic.cn/mmbiz_jpg/Xk3" "640" "1080"
           (Some "wx_fmt=jpeg") None
           eq_refl eq_refl eq_refl eq_refl eq_refl eq_refl).
Defined.

(** ** Orientation *)

Section OrientationFacts.

Import SmartFilter.

Lemma qr_stage_transposed (img : Image) :
  qr_stage (Variant.transposed img) = qr_stage img.
Proof.
  unfold qr_stage, qr_try.
  cbn [size Variant.transposed qr_gray qr_inverted qr_binary qr_detect].
  destruct (size img) as [w h]. cbn [fst snd].
  now rewrite (Z.mul_comm h w).
Qed.

Lemma decision_transposed (img : Image) (boxes : Z) (flag : bool)
    (qr : QrReason) :
  decision (Variant.transposed img) boxes flag qr = decision img boxes flag qr.
Proof.
  unfold decision, aspect_ratio_of.
  cbn [size Variant.transposed text_boxes edge_pixels].
  destruct (size img) as [w h]. cbn [fst snd].
  now rewrite (Z.mul_comm h w), (Z.min_comm h w), (Z.max_comm h w).
Qed.

End OrientationFacts.

(** X27. The classifier does not depend on which side of the image is
    the width: with the same results of the library calls, an image and
    the image with width and height exchanged get the same result past
    the dimension gate (the same verdict with the same reason, or the
    same exception), and below the gate both are discarded as too
    small. *)
Theorem verdict_ignores_orientation
    (disk : SmartFilter.ModelArtifact) (_net : option SmartFilter.dnn_Net)
    (img : Image) :
  (MIN_IMAGE_DIMENSION <= fst (size img) ->
   MIN_IMAGE_DIMENSION <= snd (size img) ->
   SmartFilter.is_valid_exam_paper disk _net (Variant.transposed img)
   = SmartFilter.is_valid_exam_paper disk _net img)
  /\ (~ (MIN_IMAGE_DIMENSION <= fst (size img)
         /\ MIN_IMAGE_DIMENSION <= snd (size img)) ->
      SmartFilter.is_valid_exam_paper disk _net img
      = Ok ((false, SmartFilter.too_small (fst (size img)) (snd (size img))),
            _net)
      /\ SmartFilter.is_valid_exam_paper disk _net (Variant.transposed img)
         = Ok ((false,
                SmartFilter.too_small (snd (size img)) (fst (size img))),
               _net)).
Proof.
  unfold SmartFilter.is_valid_exam_paper.
  rewrite qr_stage_transposed.
  cbn [size bgr text_boxes Variant.transposed].
  destruct (size img) as [w h]. cbn [fst snd].
  rewrite (orb_comm (h <? MIN_IMAGE_DIMENSION)).
  split.
  - intros Hw Hh. rewrite (gate_passed w h Hw Hh).
    destruct (bgr img); cbn [bind]; [|reflexivity].
    destruct (SmartFilter.qr_stage img) as [v0|flag qr]; [reflexivity|].
    cbv zeta. destruct (SmartFilter.load_model disk _net); [|reflexivity].
    destruct (text_boxes img); cbn [bind]; [|reflexivity].
    now rewrite decision_transposed.
  - intros H. rewrite (gate_failed w h H). split; reflexivity.
Qed.
